(** * TwigRenderer: the out-of-process Twig rendering coordinator

    A shallow embedding of [twig-renderer.js] (class [TwigRenderer]) and of
    the part of [vite-plugin.js] that builds its configuration.

    The JavaScript object is a record of fields; every [async] method is cut
    at its [await]s on the outside world (the OS, the file system, the
    network, a timer) into atomic segments.  A call runs its first segment at
    once; what is left of it is a [Thread] holding a program point, resumed
    later with the answer of the outside world ([Input]).  Calls in flight
    interleave at those points and nowhere else, which is how the event loop
    runs them.

    An [await] on one of the renderer's own async methods resumes its caller
    in the microtask that follows the callee's return: no timer, I/O
    completion or process event runs in between, so the callee's last segment
    and the caller's resumption form one segment here.  Not so where the
    callee returns within the segment of a call or of a listener: the
    [await] suspends all the same, and what runs before the resumption finds
    the state as it is at the [await]; this happens at
    [await this.cleanupConfigFile()] and is a program point of its own.
    Console output is not modelled, the conversion to a string of what is
    logged is. *)

From stdpp Require Import base gmap sets list strings.
From Stdlib Require Import ZArith Lia.

Local Open Scope Z_scope.
Local Set Warnings "-register-all".

(** ** JavaScript values *)

(** The values that flow through [request]: what [res.json()] parses, and the
    object literals the code builds.  An object is the list of its own
    properties. *)
Inductive JsVal : Type :=
  | VUndefined
  | VNull
  | VBool (b : bool)
  | VNum (z : Z)
  | VStr (s : string)
  | VArr (items : list JsVal)
  | VObj (fields : list (string * JsVal)).

Fixpoint assoc (k : string) (fields : list (string * JsVal)) : JsVal :=
  match fields with
  | [] => VUndefined
  | (k', v) :: rest => if String.eqb k k' then v else assoc k rest
  end.

(** [v.k] for the property names the code reads ([ok], [message], [html]):
    [None] is the TypeError of reading a property of [null] or [undefined];
    a primitive or an array has no such property. *)
Definition get_prop (v : JsVal) (k : string) : option JsVal :=
  match v with
  | VUndefined | VNull => None
  | VObj fields => Some (assoc k fields)
  | _ => Some VUndefined
  end.

(** [v === false] *)
Definition is_false (v : JsVal) : bool :=
  match v with VBool false => true | _ => false end.

(** Whether the template literal [`${v}`] throws.  The values here are what
    [JSON.parse] gives and the object literals the code builds, so objects
    and arrays have the built-in prototypes and no property is a function.
    Converting an object calls its [toString], then its [valueOf], and
    throws a TypeError when neither gives a primitive: an own property
    [toString] hides [Object.prototype.toString] and cannot be called, and
    [valueOf], own or inherited, gives no primitive either.  Converting an
    array joins its elements, converting each of them but [null] and
    [undefined]. *)
Fixpoint to_string_throws (v : JsVal) : bool :=
  match v with
  | VObj fields => existsb (λ kv, String.eqb kv.1 "toString") fields
  | VArr items => existsb to_string_throws items
  | _ => false
  end.

(** The value of a header that may be absent: [headers.get] gives [null]
    then. *)
Definition header_val (h : option string) : JsVal :=
  match h with Some s => VStr s | None => VNull end.

(** ** The renderer's data *)

Inductive ServerState : Type := STOPPED | STARTING | READY | STOPPING.

Definition state_eqb (a b : ServerState) : bool :=
  match a, b with
  | STOPPED, STOPPED | STARTING, STARTING | READY, READY | STOPPING, STOPPING => true
  | _, _ => false
  end.

(** [serverStates]: each state is the string of its name. *)
Definition state_name (s : ServerState) : string :=
  match s with
  | STOPPED => "STOPPED"
  | STARTING => "STARTING"
  | READY => "READY"
  | STOPPING => "STOPPING"
  end.

Record Namespace : Type := {
  ns_id : string;
  ns_paths : list string;
  ns_recursive : bool;
}.

Record AlterItem : Type := {
  alter_file : string;
  alter_functions : list string;
}.

(** The configuration object.  [keepAlive], [verbose], [debug] and
    [autoescape] hold whatever the caller put there ([VUndefined] when the
    property is missing); [maxConcurrency] is a number or missing. *)
Record Config : Type := {
  src_roots : list string;
  src_namespaces : option (list Namespace);
  relativeFrom : option string;
  alterTwigEnv : option (list AlterItem);
  debug : JsVal;
  autoescape : JsVal;
  keepAlive : JsVal;
  verbose : JsVal;
  maxConcurrency : option Z;
}.

(** The config file written for the worker, [shared-config--<port>.json]. *)
Inductive Path : Type := SharedConfig (port : N).

(** [http://127.0.0.1:<port>] *)
Inductive Url : Type := Loopback (port : N).

(** A spawned PHP process and whether the renderer's [close], [exit] and
    [error] listeners are still attached to it. *)
Record Child : Type := {
  child_port : option N;
  child_listeners : bool;
}.

(** What the code asks of the outside world, and the ports [getOpenPort]
    hands out. *)
Inductive Event : Type :=
  | EvGetPort
  | EvPortReturned (p : N)
  | EvWriteFile (path : Path)
  | EvSpawn (port : option N) (path : option Path)
  | EvKill (port : option N)
  | EvPathExists (path : Path)
  | EvUnlink (path : option Path)
  | EvProbe (url : option Url)
  | EvFetch (url : option Url) (type : string) (body : JsVal)
  | EvSleep (ms : Z)
  | EvSetTimeout (ms : Z).

(** The fields of a [TwigRenderer].  [orphans] are the children an earlier
    [init] spawned and a later one replaced in [phpServer]: their listeners
    stay attached.  [timers] counts the pending callbacks of [closeServer]'s
    [setTimeout].  [history] is a ghost field: the events so far, newest
    first. *)
Record Renderer : Type := {
  portsUsed : gset N;
  serverState : ServerState;
  inProgressRequests : Z;
  totalRequests : Z;
  completedRequests : Z;
  config : Config;
  phpServerPort : option N;
  phpServerUrl : option Url;
  sharedConfigPath : option Path;
  phpServer : option Child;
  orphans : list Child;
  timers : nat;
  history : list Event;
}.

Definition set_serverState (s : ServerState) (w : Renderer) : Renderer :=
  {| portsUsed := portsUsed w; serverState := s;
     inProgressRequests := inProgressRequests w;
     totalRequests := totalRequests w;
     completedRequests := completedRequests w; config := config w;
     phpServerPort := phpServerPort w; phpServerUrl := phpServerUrl w;
     sharedConfigPath := sharedConfigPath w; phpServer := phpServer w;
     orphans := orphans w; timers := timers w; history := history w |}.

Definition set_counters (inp tot comp : Z) (w : Renderer) : Renderer :=
  {| portsUsed := portsUsed w; serverState := serverState w;
     inProgressRequests := inp; totalRequests := tot;
     completedRequests := comp; config := config w;
     phpServerPort := phpServerPort w; phpServerUrl := phpServerUrl w;
     sharedConfigPath := sharedConfigPath w; phpServer := phpServer w;
     orphans := orphans w; timers := timers w; history := history w |}.

Definition set_sharedConfigPath (p : option Path) (w : Renderer) : Renderer :=
  {| portsUsed := portsUsed w; serverState := serverState w;
     inProgressRequests := inProgressRequests w;
     totalRequests := totalRequests w;
     completedRequests := completedRequests w; config := config w;
     phpServerPort := phpServerPort w; phpServerUrl := phpServerUrl w;
     sharedConfigPath := p; phpServer := phpServer w;
     orphans := orphans w; timers := timers w; history := history w |}.

Definition set_children (c : option Child) (old : list Child) (w : Renderer)
  : Renderer :=
  {| portsUsed := portsUsed w; serverState := serverState w;
     inProgressRequests := inProgressRequests w;
     totalRequests := totalRequests w;
     completedRequests := completedRequests w; config := config w;
     phpServerPort := phpServerPort w; phpServerUrl := phpServerUrl w;
     sharedConfigPath := sharedConfigPath w; phpServer := c;
     orphans := old; timers := timers w; history := history w |}.

Definition set_timers (n : nat) (w : Renderer) : Renderer :=
  {| portsUsed := portsUsed w; serverState := serverState w;
     inProgressRequests := inProgressRequests w;
     totalRequests := totalRequests w;
     completedRequests := completedRequests w; config := config w;
     phpServerPort := phpServerPort w; phpServerUrl := phpServerUrl w;
     sharedConfigPath := sharedConfigPath w; phpServer := phpServer w;
     orphans := orphans w; timers := n; history := history w |}.

(** [this.portsUsed.add(p)] *)
Definition add_port (p : N) (w : Renderer) : Renderer :=
  {| portsUsed := {[p]} ∪ portsUsed w; serverState := serverState w;
     inProgressRequests := inProgressRequests w;
     totalRequests := totalRequests w;
     completedRequests := completedRequests w; config := config w;
     phpServerPort := phpServerPort w; phpServerUrl := phpServerUrl w;
     sharedConfigPath := sharedConfigPath w; phpServer := phpServer w;
     orphans := orphans w; timers := timers w; history := history w |}.

(** [init] stores the port it was given, with its url and config path. *)
Definition set_port (p : N) (w : Renderer) : Renderer :=
  {| portsUsed := portsUsed w; serverState := serverState w;
     inProgressRequests := inProgressRequests w;
     totalRequests := totalRequests w;
     completedRequests := completedRequests w; config := config w;
     phpServerPort := Some p; phpServerUrl := Some (Loopback p);
     sharedConfigPath := Some (SharedConfig p); phpServer := phpServer w;
     orphans := orphans w; timers := timers w; history := history w |}.

Definition set_history (h : list Event) (w : Renderer) : Renderer :=
  {| portsUsed := portsUsed w; serverState := serverState w;
     inProgressRequests := inProgressRequests w;
     totalRequests := totalRequests w;
     completedRequests := completedRequests w; config := config w;
     phpServerPort := phpServerPort w; phpServerUrl := phpServerUrl w;
     sharedConfigPath := sharedConfigPath w; phpServer := phpServer w;
     orphans := orphans w; timers := timers w; history := h |}.

Definition log (e : Event) (w : Renderer) : Renderer :=
  {| portsUsed := portsUsed w; serverState := serverState w;
     inProgressRequests := inProgressRequests w;
     totalRequests := totalRequests w;
     completedRequests := completedRequests w; config := config w;
     phpServerPort := phpServerPort w; phpServerUrl := phpServerUrl w;
     sharedConfigPath := sharedConfigPath w; phpServer := phpServer w;
     orphans := orphans w; timers := timers w; history := e :: history w |}.

(** ** The outside world's answers *)

(** What [fetch] resolves to: [res.status], [res.ok] and the two headers the
    code reads ([None]: the header is absent).  The body comes with the
    later [res.json()] or [res.text()]. *)
Record Response : Type := {
  res_status : Z;
  res_ok : bool;
  res_contentType : option string;
  res_warning : option string;
}.

(** The answer to the [await] a thread is suspended at. *)
Inductive Input : Type :=
  | InPort (p : N)             (* getPort() resolved *)
  | InOk                       (* writeFile, unlink or sleep resolved *)
  | InBool (b : bool)          (* fs.pathExists resolved *)
  | InResponse (r : Response)  (* fetch resolved *)
  | InJson (v : JsVal)         (* res.json() resolved *)
  | InText (s : string)        (* res.text() resolved *)
  | InThrow (msg : string).    (* the promise rejected with an Error *)

(** ** [getOpenPort] *)

Inductive PortStep : Type :=
  | PortAgain                 (* the loop asks the OS again *)
  | PortReturn (p : N)
  | PortThrow (msg : string).

(** The call runs up to the first [await getPort(...)]. *)
Definition getOpenPort_call (w : Renderer) : Renderer := log EvGetPort w.

(** Resumed with the port the OS selected: a port already in [portsUsed]
    sends the loop round again, any other is added to the registry and
    returned. *)
Definition getOpenPort_resume (w : Renderer) (i : Input)
  : option (Renderer * PortStep) :=
  match i with
  | InPort p =>
      if decide (p ∈ portsUsed w)
      then Some (log EvGetPort w, PortAgain)
      else Some (log (EvPortReturned p) (add_port p w), PortReturn p)
  | InThrow msg => Some (w, PortThrow msg)
  | _ => None
  end.

(** ** [init], [checkIfServerIsReady], [checkServerWhileStarting] *)

(** Where a suspended [init] waits. *)
Inductive InitPc : Type :=
  | IGetPort     (* in getOpenPort: await getPort(...) *)
  | IWriteFile   (* await fs.writeFile(sharedConfigPath, ...) *)
  | IProbe       (* in checkIfServerIsReady: await fetch(phpServerUrl) *)
  | ISleep.      (* in checkServerWhileStarting: await sleep(100) *)

Inductive InitStep : Type :=
  | InitPending (pc : InitPc)
  | InitReturn (s : ServerState)
  | InitThrow (msg : string).

(** The head of the polling loop: probe while the state is [STARTING],
    return the state otherwise. *)
Definition checkServerWhileStarting (w : Renderer) : Renderer * InitStep :=
  if state_eqb (serverState w) STARTING
  then (log (EvProbe (phpServerUrl w)) w, InitPending IProbe)
  else (w, InitReturn (serverState w)).

(** [checkIfServerIsReady] after its [fetch]: an ok response makes the
    state [READY], a rejected fetch is caught; then the loop sleeps. *)
Definition checkIfServerIsReady_resume (w : Renderer) (i : Input)
  : option Renderer :=
  match i with
  | InResponse r => Some (if res_ok r then set_serverState READY w else w)
  | InThrow _ => Some w
  | _ => None
  end.

(** [execa("php", ...)] and the three [on(...)] registrations: the new
    child replaces [phpServer], its listeners attached. *)
Definition spawn (w : Renderer) : Renderer :=
  log (EvSpawn (phpServerPort w) (sharedConfigPath w))
    (set_children
       (Some {| child_port := phpServerPort w; child_listeners := true |})
       (match phpServer w with
        | Some old => old :: orphans w
        | None => orphans w
        end) w).

(** The call: the two guards, else [STARTING] and on to [getOpenPort]. *)
Definition init_call (w : Renderer) : Renderer * InitStep :=
  match serverState w with
  | STARTING => (w, InitReturn STARTING)
  | STOPPING => (set_serverState READY w, InitReturn READY)
  | _ => (getOpenPort_call (set_serverState STARTING w), InitPending IGetPort)
  end.

Definition init_resume (w : Renderer) (pc : InitPc) (i : Input)
  : option (Renderer * InitStep) :=
  match pc with
  | IGetPort =>
      match getOpenPort_resume w i with
      | Some (w1, PortAgain) => Some (w1, InitPending IGetPort)
      | Some (w1, PortReturn p) =>
          Some (log (EvWriteFile (SharedConfig p)) (set_port p w1),
                InitPending IWriteFile)
      | Some (w1, PortThrow msg) => Some (w1, InitThrow msg)
      | None => None
      end
  | IWriteFile =>
      match i with
      | InOk => Some (checkServerWhileStarting (spawn w))
      | InThrow msg => Some (w, InitThrow msg)
      | _ => None
      end
  | IProbe =>
      match checkIfServerIsReady_resume w i with
      | Some w1 => Some (log (EvSleep 100) w1, InitPending ISleep)
      | None => None
      end
  | ISleep =>
      match i with
      | InOk => Some (checkServerWhileStarting w)
      | _ => None
      end
  end.

(** ** [cleanupConfigFile] and [stop] *)

Inductive CleanupPc : Type :=
  | CPathExists  (* await fs.pathExists(sharedConfigPath) *)
  | CUnlink      (* await fs.unlink(sharedConfigPath) *)
  | CSettled.    (* await this.cleanupConfigFile(), which has returned *)

(** [None]: [cleanupConfigFile] has returned. *)
Definition cleanupConfigFile_call (w : Renderer)
  : Renderer * option CleanupPc :=
  match sharedConfigPath w with
  | None => (w, None)
  | Some f => (log (EvPathExists f) w, Some CPathExists)
  end.

(** Every way out of the [try] goes through [finally], which clears the
    path.  At [CSettled] nothing is awaited from the outside world: the
    caller goes on in the next turn, whatever that turn brings. *)
Definition cleanupConfigFile_resume (w : Renderer) (pc : CleanupPc) (i : Input)
  : option (Renderer * option CleanupPc) :=
  match pc, i with
  | CSettled, _ => Some (w, None)
  | CPathExists, InBool true =>
      Some (log (EvUnlink (sharedConfigPath w)) w, Some CUnlink)
  | CPathExists, InBool false => Some (set_sharedConfigPath None w, None)
  | CPathExists, InThrow _ => Some (set_sharedConfigPath None w, None)
  | CUnlink, InOk => Some (set_sharedConfigPath None w, None)
  | CUnlink, InThrow _ => Some (set_sharedConfigPath None w, None)
  | _, _ => None
  end.

(** [phpServer.kill(); phpServer.removeAllListeners()] *)
Definition kill_server (w : Renderer) : Renderer :=
  match phpServer w with
  | Some c =>
      log (EvKill (child_port c))
        (set_children
           (Some {| child_port := child_port c; child_listeners := false |})
           (orphans w) w)
  | None => w
  end.

(** [stop] and the [exit] listener both end with the state [STOPPED] once
    the cleanup is over: what they do when they are resumed after
    [cleanupConfigFile] has returned. *)
Definition after_cleanup (r : Renderer * option CleanupPc)
  : Renderer * option CleanupPc :=
  match r with
  | (w, None) => (set_serverState STOPPED w, None)
  | (w, Some pc) => (w, Some pc)
  end.

(** [await this.cleanupConfigFile()] in a first segment, of [stop] or of the
    [exit] listener: the [await] suspends its caller also when
    [cleanupConfigFile] has returned at once, so the state is set to
    [STOPPED] in a later turn and whatever is called before that finds the
    state as it is here. *)
Definition await_cleanup (r : Renderer * option CleanupPc)
  : Renderer * option CleanupPc :=
  match r with
  | (w, None) => (w, Some CSettled)
  | (w, Some pc) => (w, Some pc)
  end.

(** [None]: [stop] has returned, which it does at once on its guard
    only. *)
Definition stop_call (w : Renderer) : Renderer * option CleanupPc :=
  match serverState w with
  | STOPPED | STOPPING => (w, None)
  | _ =>
      await_cleanup
        (cleanupConfigFile_call (kill_server (set_serverState STOPPING w)))
  end.

(** ** The listeners on the child process *)

(** [close] and [exit]; the [error] listener only writes to the console.  A
    child may emit its events at any time while the listeners are
    attached. *)

Definition on_close (w : Renderer) : Renderer := set_serverState STOPPING w.

Definition on_exit (w : Renderer) : Renderer * option CleanupPc :=
  if state_eqb (serverState w) STOPPING
  then (set_serverState STOPPED w, None)
  else await_cleanup (cleanupConfigFile_call w).

(** Some child still has the renderer's listeners attached. *)
Definition listening (w : Renderer) : bool :=
  match phpServer w with
  | Some c => child_listeners c
  | None => false
  end
  || existsb child_listeners (orphans w).

(** ** [closeServer] *)

(** [completedRequests === totalRequests && inProgressRequests === 0] *)
Definition idle (w : Renderer) : bool :=
  (completedRequests w =? totalRequests w) && (inProgressRequests w =? 0).

(** The callback [closeServer] hands to [setTimeout]. *)
Definition on_timer (w : Renderer) : Renderer * option CleanupPc :=
  if idle w then stop_call w else (w, None).

Definition schedule_recheck (w : Renderer) : Renderer :=
  log (EvSetTimeout 300) (set_timers (S (timers w)) w).

(** [stop()] is called and not awaited: what is left of it runs on its
    own. *)
Definition closeServer (w : Renderer) : Renderer * option CleanupPc :=
  if is_false (keepAlive (config w)) then
    if idle w
       && (negb (state_eqb (serverState w) STOPPING)
           || negb (state_eqb (serverState w) STOPPED))
    then stop_call w
    else (schedule_recheck w, None)
  else (w, None).

(** ** [request] *)

(** [const attempts = 3] *)
Definition attempts : nat := 3.

Record ReqArgs : Type := {
  req_type : string;
  req_body : JsVal;
}.

(** Where a suspended [request] waits. *)
Inductive ReqPc : Type :=
  | RInit (pc : InitPc)   (* await this.init() *)
  | RWaitReady            (* await sleep(250), state is not READY *)
  | RWaitConcurrency      (* await sleep(250), too many in progress *)
  | RFetch (attempt : nat)                 (* await fetch(requestUrl, ...) *)
  | RJson (attempt : nat)                  (* await res.json() *)
  | RText (attempt : nat) (ok : bool) (warning : option string).
                                           (* await res.text() *)

Inductive ReqStep : Type :=
  | ReqPending (pc : ReqPc)
  | ReqReturn (results : JsVal)
  | ReqThrow (msg : string).

(** The statements after the retry loop: reading [results.ok] throws when
    [results] is [null] or [undefined]; when [results.ok === false] the
    message is converted to a string for the console, which throws for a
    message that has no string. *)
Definition request_end (w : Renderer) (results : JsVal) : Renderer * ReqStep :=
  match get_prop results "ok" with
  | None => (w, ReqThrow "Cannot read properties of null (reading 'ok')")
  | Some ok =>
      if is_false ok
         && to_string_throws (default VUndefined (get_prop results "message"))
      then (w, ReqThrow "Cannot convert object to primitive value")
      else (w, ReqReturn results)
  end.

(** The head of the retry loop: the next attempt's [fetch], or the end. *)
Definition retry_loop (a : ReqArgs) (attempt : nat) (results : JsVal)
    (w : Renderer) : Renderer * ReqStep :=
  if (attempt <? attempts)%nat then
    (log (EvFetch (phpServerUrl w) (req_type a) (req_body a))
       (set_counters (inProgressRequests w + 1) (totalRequests w)
          (completedRequests w) w),
     ReqPending (RFetch attempt))
  else request_end w results.

(** The loop [while (inProgressRequests > config.maxConcurrency)]; the
    comparison is false when [maxConcurrency] is missing. *)
Definition gate_concurrency (a : ReqArgs) (w : Renderer) : Renderer * ReqStep :=
  if match maxConcurrency (config w) with
     | Some m => inProgressRequests w >? m
     | None => false
     end
  then (log (EvSleep 250) w, ReqPending RWaitConcurrency)
  else retry_loop a 0 VUndefined w.

(** The loop [while (serverState !== READY)]. *)
Definition gate_ready (a : ReqArgs) (w : Renderer) : Renderer * ReqStep :=
  if state_eqb (serverState w) READY
  then gate_concurrency a w
  else (log (EvSleep 250) w, ReqPending RWaitReady).

Definition after_init (a : ReqArgs) (r : Renderer * InitStep)
  : Renderer * ReqStep :=
  match r with
  | (w, InitPending pc) => (w, ReqPending (RInit pc))
  | (w, InitReturn _) => gate_ready a w
  | (w, InitThrow msg) => (w, ReqThrow msg)
  end.

Definition request_call (a : ReqArgs) (w : Renderer) : Renderer * ReqStep :=
  let w1 := set_counters (inProgressRequests w) (totalRequests w + 1)
              (completedRequests w) w in
  if state_eqb (serverState w1) STOPPED
  then after_init a (init_call w1)
  else gate_ready a w1.

(** The end of the [try] block: the attempt got its results. *)
Definition attempt_ok (w : Renderer) (results : JsVal) : Renderer * ReqStep :=
  request_end
    (set_counters (inProgressRequests w - 1) (totalRequests w)
       (completedRequests w + 1) w)
    results.

(** The [catch] block, then the loop head again. *)
Definition attempt_failed (a : ReqArgs) (attempt : nat) (msg : string)
    (w : Renderer) : Renderer * ReqStep :=
  retry_loop a (S attempt)
    (VObj [("ok", VBool false); ("message", VStr msg)])
    (set_counters (inProgressRequests w - 1) (totalRequests w)
       (completedRequests w) w).

Definition request_resume (a : ReqArgs) (w : Renderer) (pc : ReqPc) (i : Input)
  : option (Renderer * ReqStep) :=
  match pc with
  | RInit ipc =>
      match init_resume w ipc i with
      | Some r => Some (after_init a r)
      | None => None
      end
  | RWaitReady =>
      match i with InOk => Some (gate_ready a w) | _ => None end
  | RWaitConcurrency =>
      match i with InOk => Some (gate_concurrency a w) | _ => None end
  | RFetch attempt =>
      match i with
      | InResponse r =>
          if decide (res_contentType r = Some "application/json")
          then Some (w, ReqPending (RJson attempt))
          else Some (w, ReqPending (RText attempt (res_ok r) (res_warning r)))
      | InThrow msg => Some (attempt_failed a attempt msg w)
      | _ => None
      end
  | RJson attempt =>
      match i with
      | InJson v => Some (attempt_ok w v)
      | InThrow msg => Some (attempt_failed a attempt msg w)
      | _ => None
      end
  | RText attempt ok warning =>
      match i with
      | InText html =>
          Some (attempt_ok w
                  (VObj [("ok", VBool ok); ("message", header_val warning);
                         ("html", VStr html)]))
      | InThrow msg => Some (attempt_failed a attempt msg w)
      | _ => None
      end
  end.

(** ** Calls in flight *)

Inductive Outcome : Type :=
  | Returned (v : JsVal)
  | Threw (msg : string).

(** A call that has not finished yet, or its outcome. *)
Inductive Thread : Type :=
  | TInit (pc : InitPc)                  (* init() *)
  | TRequest (a : ReqArgs) (pc : ReqPc)  (* request(), getMeta() *)
  | TRender (a : ReqArgs) (pc : ReqPc)   (* render(), renderString():
                                            await this.request(...) *)
  | TCleanup (pc : CleanupPc)            (* stop() or the exit listener:
                                            await this.cleanupConfigFile() *)
  | TDone (o : Outcome).

(** What a segment leaves behind: the renderer, the thread that ran, and the
    threads it started without awaiting them. *)
Definition Segment : Type := Renderer * Thread * list Thread.

Definition spawned (c : option CleanupPc) : list Thread :=
  match c with
  | Some pc => [TCleanup pc]
  | None => []
  end.

Definition of_init (r : Renderer * InitStep) : Segment :=
  match r with
  | (w, InitPending pc) => (w, TInit pc, [])
  | (w, InitReturn s) => (w, TDone (Returned (VStr (state_name s))), [])
  | (w, InitThrow msg) => (w, TDone (Threw msg), [])
  end.

Definition of_request (a : ReqArgs) (r : Renderer * ReqStep) : Segment :=
  match r with
  | (w, ReqPending pc) => (w, TRequest a pc, [])
  | (w, ReqReturn v) => (w, TDone (Returned v), [])
  | (w, ReqThrow msg) => (w, TDone (Threw msg), [])
  end.

(** [render] and [renderString] after their [await this.request(...)]:
    [closeServer()] is called, not awaited, and the result returned. *)
Definition of_render (a : ReqArgs) (r : Renderer * ReqStep) : Segment :=
  match r with
  | (w, ReqPending pc) => (w, TRender a pc, [])
  | (w, ReqReturn v) =>
      let (w', c) := closeServer w in (w', TDone (Returned v), spawned c)
  | (w, ReqThrow msg) => (w, TDone (Threw msg), [])
  end.

Definition of_cleanup (r : Renderer * option CleanupPc) : Segment :=
  match r with
  | (w, Some pc) => (w, TCleanup pc, [])
  | (w, None) => (w, TDone (Returned VUndefined), [])
  end.

(** The default parameter [data = {}]: an argument that is missing or
    [undefined] is replaced by an empty object. *)
Definition data_or_empty (data : JsVal) : JsVal :=
  match data with
  | VUndefined => VObj []
  | _ => data
  end.

(** The object literal [{ template, data }]. *)
Definition render_args (type template : string) (data : JsVal) : ReqArgs :=
  {| req_type := type;
     req_body := VObj [("template", VStr template); ("data", data)] |}.

Definition render (template : string) (data : JsVal) (w : Renderer) : Segment :=
  let a := render_args "renderFile" template (data_or_empty data) in
  of_render a (request_call a w).

Definition renderString (template : string) (data : JsVal) (w : Renderer)
  : Segment :=
  let a := render_args "renderString" template (data_or_empty data) in
  of_render a (request_call a w).

Definition getMeta (w : Renderer) : Segment :=
  let a := {| req_type := "meta"; req_body := VObj [] |} in
  of_request a (request_call a w).

(** The public methods a caller may invoke. *)
Inductive Call : Type :=
  | CRender (template : string) (data : JsVal)
  | CRenderString (template : string) (data : JsVal)
  | CGetMeta
  | CRequest (a : ReqArgs)
  | CInit
  | CStop.

Definition call (w : Renderer) (c : Call) : Segment :=
  match c with
  | CRender template data => render template data w
  | CRenderString template data => renderString template data w
  | CGetMeta => getMeta w
  | CRequest a => of_request a (request_call a w)
  | CInit => of_init (init_call w)
  | CStop => of_cleanup (stop_call w)
  end.

(** Resume a thread with the answer to its pending [await]; [None] when the
    thread has finished or the answer is not of the awaited kind. *)
Definition resume (w : Renderer) (t : Thread) (i : Input) : option Segment :=
  match t with
  | TInit pc => of_init <$> init_resume w pc i
  | TRequest a pc => of_request a <$> request_resume a w pc i
  | TRender a pc => of_render a <$> request_resume a w pc i
  | TCleanup pc =>
      (λ r, of_cleanup (after_cleanup r)) <$> cleanupConfigFile_resume w pc i
  | TDone _ => None
  end.

(** One call on its own: feed it the answers in turn; an answer the thread
    cannot take (it has finished, or awaits another kind) is passed over. *)
Fixpoint run (w : Renderer) (t : Thread) (inputs : list Input) : Segment :=
  match inputs with
  | [] => (w, t, [])
  | i :: rest =>
      match resume w t i with
      | None => run w t rest
      | Some (w1, t1, sp) =>
          let '(w2, t2, sp') := run w1 t1 rest in (w2, t2, sp ++ sp')
      end
  end.

(** [call] then [run]. *)
Definition run_call (w : Renderer) (c : Call) (inputs : list Input) : Segment :=
  let '(w1, t1, sp) := call w c in
  let '(w2, t2, sp') := run w1 t1 inputs in (w2, t2, sp ++ sp').

(** ** The renderer and all its calls in flight *)

Record Sys : Type := {
  world : Renderer;
  threads : list Thread;
}.

(** One turn of the event loop: a caller invokes a method, an awaited
    promise settles, a child with listeners attached emits [close] or
    [exit], or a timer of [closeServer] fires. *)
Inductive sys_step : Sys → Sys → Prop :=
  | step_call s c w t sp :
      call (world s) c = (w, t, sp) →
      sys_step s {| world := w; threads := threads s ++ t :: sp |}
  | step_resume s n t i w t' sp :
      threads s !! n = Some t →
      resume (world s) t i = Some (w, t', sp) →
      sys_step s {| world := w; threads := <[n:=t']> (threads s) ++ sp |}
  | step_close s :
      listening (world s) = true →
      sys_step s {| world := on_close (world s); threads := threads s |}
  | step_exit s w c :
      listening (world s) = true →
      on_exit (world s) = (w, c) →
      sys_step s {| world := w; threads := threads s ++ spawned c |}
  | step_timer s n w c :
      timers (world s) = S n →
      on_timer (set_timers n (world s)) = (w, c) →
      sys_step s {| world := w; threads := threads s ++ spawned c |}.

(** ** The constructor *)

(** The fields as the constructor sets them, before [validateConfig]. *)
Definition new_renderer (c : Config) : Renderer :=
  {| portsUsed := ∅; serverState := STOPPED;
     inProgressRequests := 0; totalRequests := 0; completedRequests := 0;
     config := c;
     phpServerPort := None; phpServerUrl := None; sharedConfigPath := None;
     phpServer := None; orphans := []; timers := 0%nat; history := [] |}.

Definition initial (c : Config) : Sys :=
  {| world := new_renderer c; threads := [] |}.

(** The states a renderer built with configuration [c] can be observed
    in. *)
Definition reachable (c : Config) (s : Sys) : Prop := rtc sys_step (initial c) s.

Inductive Construction : Type :=
  | Built (r : Renderer)
  | Thrown (msg : string)
  | Exited (code : Z).     (* process.exit(code) *)

Definition set_verbose (v : JsVal) (c : Config) : Config :=
  {| src_roots := src_roots c; src_namespaces := src_namespaces c;
     relativeFrom := relativeFrom c; alterTwigEnv := alterTwigEnv c;
     debug := debug c; autoescape := autoescape c; keepAlive := keepAlive c;
     verbose := v; maxConcurrency := maxConcurrency c |}.

Definition set_relativeFrom (p : string) (c : Config) : Config :=
  {| src_roots := src_roots c; src_namespaces := src_namespaces c;
     relativeFrom := Some p; alterTwigEnv := alterTwigEnv c;
     debug := debug c; autoescape := autoescape c; keepAlive := keepAlive c;
     verbose := verbose c; maxConcurrency := maxConcurrency c |}.

Definition set_alterTwigEnv (l : option (list AlterItem)) (c : Config) : Config :=
  {| src_roots := src_roots c; src_namespaces := src_namespaces c;
     relativeFrom := relativeFrom c; alterTwigEnv := l;
     debug := debug c; autoescape := autoescape c; keepAlive := keepAlive c;
     verbose := verbose c; maxConcurrency := maxConcurrency c |}.

Definition set_src (roots : list string) (nss : option (list Namespace))
    (c : Config) : Config :=
  {| src_roots := roots; src_namespaces := nss;
     relativeFrom := relativeFrom c; alterTwigEnv := alterTwigEnv c;
     debug := debug c; autoescape := autoescape c; keepAlive := keepAlive c;
     verbose := verbose c; maxConcurrency := maxConcurrency c |}.

Section Constructor.

(** The process's surroundings: whether [php --version] runs, the compiled
    schema of [config.schema.json] ([None]: the configuration is invalid;
    [Some c']: valid, and [c'] is the configuration with the schema's
    defaults assigned), the file system and [path], [getAllFolders] and
    [formatSchemaErrors] of [utils.js], and whether [NODE_ENV] is
    [testing]. *)
Variable php_available : bool.
Variable validateSchemaAndAssignDefaults : Config → option Config.
Variable formatSchemaErrors : Config → string.
Variable existsSync : string → bool.
Variable cwd : string.
Variable path_resolve : string → string → string.
Variable path_relative : string → string → string.
Variable path_isAbsolute : string → bool.
Variable getAllFolders : string → string → list string.
Variable testing : bool.

(** [checkPaths] of [processPaths]: [inl] is the thrown message. *)
Fixpoint checkPaths (paths : list string) (relFrom : string)
    (recursive : bool) : string + list string :=
  match paths with
  | [] => inr []
  | thePath :: rest =>
      let fullPath := path_resolve relFrom thePath in
      let relPath := path_relative relFrom fullPath in
      if existsSync fullPath then
        match checkPaths rest relFrom recursive with
        | inl msg => inl msg
        | inr l =>
            inr ((if recursive then getAllFolders fullPath relFrom
                  else [relPath]) ++ l)
        end
      else
        inl ("This file path does not exist, but was used in config: "
             +:+ thePath)
  end.

Fixpoint checkNamespaces (nss : list Namespace) (relFrom : string)
  : string + list Namespace :=
  match nss with
  | [] => inr []
  | ns :: rest =>
      match checkPaths (ns_paths ns) relFrom (ns_recursive ns) with
      | inl msg => inl msg
      | inr ps =>
          match checkNamespaces rest relFrom with
          | inl msg => inl msg
          | inr l =>
              inr ({| ns_id := ns_id ns; ns_paths := ps;
                      ns_recursive := false |} :: l)
          end
      end
  end.

(** [relativeFrom] has been set by [validateConfig] when this runs. *)
Definition processPaths (c : Config) : string + Config :=
  let relFrom := default cwd (relativeFrom c) in
  match checkPaths (src_roots c) relFrom false with
  | inl msg => inl msg
  | inr roots =>
      match src_namespaces c with
      | None => inr (set_src roots None c)
      | Some nss =>
          match checkNamespaces nss relFrom with
          | inl msg => inl msg
          | inr nss' => inr (set_src roots (Some nss') c)
          end
      end
  end.

Definition resolve_alter (relFrom : string) (item : AlterItem) : AlterItem :=
  {| alter_file :=
       if path_isAbsolute (alter_file item) then alter_file item
       else path_resolve relFrom (alter_file item);
     alter_functions := alter_functions item |}.

Definition validateConfig (w : Renderer) : Construction :=
  match validateSchemaAndAssignDefaults (config w) with
  | None =>
      if testing
      then Thrown ("Error: Please check config passed into TwigRenderer."
                   +:+ String (Ascii.ascii_of_nat 10) ""
                   +:+ formatSchemaErrors (config w))
      else Exited 1
  | Some c1 =>
      (* an empty string is falsy *)
      let given := match relativeFrom c1 with
                   | Some "" | None => None
                   | Some p => Some p
                   end in
      match given with
      | Some p =>
          if existsSync p then
            let c2 := set_relativeFrom (path_resolve cwd p) c1 in
            let c3 := set_alterTwigEnv
                        (map (resolve_alter (path_resolve cwd p))
                           <$> alterTwigEnv c2) c2 in
            match processPaths c3 with
            | inl msg => Thrown msg
            | inr c4 => Built (new_renderer c4)
            end
          else Thrown ("Uh oh, that file path does not exist: " +:+ p)
      | None =>
          let c2 := set_relativeFrom cwd c1 in
          let c3 := set_alterTwigEnv
                      (map (resolve_alter cwd) <$> alterTwigEnv c2) c2 in
          match processPaths c3 with
          | inl msg => Thrown msg
          | inr c4 => Built (new_renderer c4)
          end
      end
  end.

(** [new TwigRenderer(userConfig)] *)
Definition constructor (userConfig : Config) : Construction :=
  if php_available
  then validateConfig (new_renderer (set_verbose (VBool true) userConfig))
  else Exited 1.

(** *** The configuration the Vite plugin passes *)

Record PluginAlter : Type := {
  pa_file : string;
  pa_functions : option (list string);
}.

(** The plugin options [renderTemplate] reads for the renderer: a missing
    flag is [VUndefined]; each namespace is an id with its paths. *)
Record PluginOptions : Type := {
  opt_root : string;
  opt_namespaces : list (string * list string);
  opt_alterTwigEnv : list PluginAlter;
  opt_debug : JsVal;
  opt_autoescape : JsVal;
  opt_verbose : JsVal;
}.

(** [x !== undefined ? x : d] *)
Definition or_default (x d : JsVal) : JsVal :=
  match x with VUndefined => d | _ => x end.

Definition plugin_config (root : string) (o : PluginOptions) : Config :=
  {| src_roots := [path_relative root (opt_root o)];
     src_namespaces :=
       match opt_namespaces o with
       | [] => None
       | nss =>
           Some (map (λ ns,
                        {| ns_id := fst ns;
                           ns_paths :=
                             map (λ p, path_relative root
                                         (path_resolve (opt_root o) p))
                               (snd ns);
                           ns_recursive := false |}) nss)
       end;
     relativeFrom := Some root;
     alterTwigEnv :=
       match opt_alterTwigEnv o with
       | [] => None
       | l =>
           Some (map (λ a, {| alter_file := pa_file a;
                              alter_functions :=
                                default [] (pa_functions a) |}) l)
       end;
     debug := or_default (opt_debug o) (VBool true);
     autoescape := or_default (opt_autoescape o) (VBool false);
     keepAlive := VBool false;
     verbose := or_default (opt_verbose o) (VBool false);
     maxConcurrency := None |}.

End Constructor.

(** ** Sample data *)

Definition sample_config : Config :=
  {| src_roots := ["templates"]; src_namespaces := None;
     relativeFrom := Some "/project"; alterTwigEnv := None;
     debug := VBool true; autoescape := VBool false;
     keepAlive := VBool false; verbose := VBool true;
     maxConcurrency := Some 5 |}.

(** A worker answering the liveness probe with 200. *)
Definition probe_ok : Response :=
  {| res_status := 200; res_ok := true;
     res_contentType := Some "text/html; charset=UTF-8";
     res_warning := None |}.

(** The inputs that take [init] from [STOPPED] to [READY] on port [p]. *)
Definition startup (p : N) : list Input :=
  [InPort p; InOk; InResponse probe_ok; InOk].

(** A renderer whose worker is up on port 8000. *)
Definition ready_renderer (c : Config) : Renderer :=
  (run_call (new_renderer c) CInit (startup 8000)).1.1.

Definition meta_args : ReqArgs := {| req_type := "meta"; req_body := VObj [] |}.

(** A renderer caught while its worker starts, and one caught while the
    worker shuts down. *)
Definition starting_renderer : Renderer :=
  (run_call (new_renderer sample_config) CInit [InPort 8000; InOk]).1.1.

Definition stopping_renderer : Renderer :=
  on_close (ready_renderer sample_config).

(** A worker answering a request with plain output, status 200 and no
    [Warning] header; and one answering with status 500 and no [Warning]
    header. *)
Definition plain_ok : Response :=
  {| res_status := 200; res_ok := true;
     res_contentType := Some "text/html; charset=UTF-8";
     res_warning := None |}.




(** The outcome of the thread a segment ran, if it has finished. *)
Definition outcome (g : Segment) : option Outcome :=
  match g with
  | (_, TDone o, _) => Some o
  | _ => None
  end.



(** *** Counting *)

(** An attempt that fails: [fetch] rejects, or the response arrives and
    reading its body rejects. *)
Inductive failed_attempt (msg : string) : list Input → Prop :=
  | fetch_threw : failed_attempt msg [InThrow msg]
  | body_threw r : failed_attempt msg [InResponse r; InThrow msg].

(** The number of requests sent to the worker so far. *)
Fixpoint fetches (h : list Event) : nat :=
  match h with
  | [] => 0
  | EvFetch _ _ _ :: rest => S (fetches rest)
  | _ :: rest => fetches rest
  end.

(** The ports [getOpenPort] has returned so far, newest first. *)
Fixpoint ports_returned (h : list Event) : list N :=
  match h with
  | [] => []
  | EvPortReturned p :: rest => p :: ports_returned rest
  | _ :: rest => ports_returned rest
  end.

(** A call of [request] that has neither returned nor thrown. *)
Definition pending (t : Thread) : Z :=
  match t with
  | TRequest _ _ | TRender _ _ => 1
  | _ => 0
  end.

(** A call of [request] inside an attempt. *)
Definition in_attempt (t : Thread) : Z :=
  match t with
  | TRequest _ (RFetch _ | RJson _ | RText _ _ _)
  | TRender _ (RFetch _ | RJson _ | RText _ _ _) => 1
  | _ => 0
  end.

Fixpoint total_of (f : Thread → Z) (ts : list Thread) : Z :=
  match ts with
  | [] => 0
  | t :: rest => f t + total_of f rest
  end.

(** Whether a method call goes through [request]. *)
Definition is_request (c : Call) : bool :=
  match c with
  | CInit | CStop => false
  | _ => true
  end.

(** The requests a call has sent, read off its program point: [base] were
    sent before the call, and attempt [n] in flight makes [n + 1] more. *)
Definition fetch_count (base : nat) (w : Renderer) (t : Thread) : Prop :=
  match t with
  | TRequest _ (RFetch n | RJson n | RText n _ _)
  | TRender _ (RFetch n | RJson n | RText n _ _) =>
      (n < attempts)%nat ∧ fetches (history w) = (base + S n)%nat
  | TDone _ => (base ≤ fetches (history w) ≤ base + attempts)%nat
  | _ => fetches (history w) = base
  end.

(** A result with [ok: false] and no message: what a response that is not
    ok, not JSON and without [Warning] header leads to. *)
Definition result_without_message : JsVal :=
  VObj [("ok", VBool false); ("message", VNull);
        ("html", VStr "Internal Server Error")].

(** Every call of [request] counted in [completedRequests] or still pending
    was counted in [totalRequests] when it began, and [inProgressRequests]
    counts the calls inside an attempt. *)
Definition counters_inv (s : Sys) : Prop :=
  0 ≤ completedRequests (world s)
  ∧ completedRequests (world s) + total_of pending (threads s)
    ≤ totalRequests (world s)
  ∧ inProgressRequests (world s) = total_of in_attempt (threads s).

(** *** Schedules *)

(** One turn of the event loop, named; [act] runs it. *)
Inductive Action : Type :=
  | ACall (c : Call)
  | AResume (n : nat) (i : Input)
  | AClose
  | AExit
  | ATimer.

Definition act (s : Sys) (a : Action) : option Sys :=
  match a with
  | ACall c =>
      let '(w, t, sp) := call (world s) c in
      Some {| world := w; threads := threads s ++ t :: sp |}
  | AResume n i =>
      match threads s !! n with
      | Some t =>
          match resume (world s) t i with
          | Some (w, t', sp) =>
              Some {| world := w; threads := <[n:=t']> (threads s) ++ sp |}
          | None => None
          end
      | None => None
      end
  | AClose =>
      if listening (world s)
      then Some {| world := on_close (world s); threads := threads s |}
      else None
  | AExit =>
      if listening (world s)
      then let '(w, c) := on_exit (world s) in
           Some {| world := w; threads := threads s ++ spawned c |}
      else None
  | ATimer =>
      match timers (world s) with
      | S n =>
          let '(w, c) := on_timer (set_timers n (world s)) in
          Some {| world := w; threads := threads s ++ spawned c |}
      | O => None
      end
  end.

Fixpoint play (s : Sys) (schedule : list Action) : option Sys :=
  match schedule with
  | [] => Some s
  | a :: rest =>
      match act s a with
      | Some s' => play s' rest
      | None => None
      end
  end.

(** The worker comes up, two renders are called, the first gets its
    answer. *)
Definition two_renders_schedule : list Action :=
  [ACall CInit; AResume 0 (InPort 8000); AResume 0 InOk;
   AResume 0 (InResponse probe_ok); AResume 0 InOk;
   ACall (CRender "a.twig" (VObj []));
   ACall (CRenderString "{{ b }}" (VObj []));
   AResume 1 (InResponse plain_ok); AResume 1 (InText "<p>a</p>")].

Definition two_renders : Sys :=
  default (initial sample_config)
    (play (initial sample_config) two_renders_schedule).

(** What one turn of the event loop does to the registry: nothing, or
    [getOpenPort] returns one port that was not in it and now is. *)
Definition port_step (w w' : Renderer) : Prop :=
  (portsUsed w' = portsUsed w
   ∧ ports_returned (history w') = ports_returned (history w))
  ∨ (∃ p, (p ∉ portsUsed w)
          ∧ portsUsed w' = {[p]} ∪ portsUsed w
          ∧ ports_returned (history w') = p :: ports_returned (history w)).

Definition ports_inv (w : Renderer) : Prop :=
  NoDup (ports_returned (history w))
  ∧ (∀ p, p ∈ ports_returned (history w) → p ∈ portsUsed w).

(** Two restarts: the worker comes up on 8000 and exits; the next [init]
    is offered 8000 again by the OS, then 8001. *)
Definition restart_schedule : list Action :=
  [ACall CInit; AResume 0 (InPort 8000); AResume 0 InOk;
   AResume 0 (InResponse probe_ok); AResume 0 InOk;
   AClose; AExit;
   ACall CInit; AResume 1 (InPort 8000); AResume 1 (InPort 8001);
   AResume 1 InOk; AResume 1 (InResponse probe_ok); AResume 1 InOk].

Definition restarted : Sys :=
  default (initial sample_config)
    (play (initial sample_config) restart_schedule).

(** *** [render] next to [request] *)

(** What [render] and [renderString] make of the [request] they await:
    they stay suspended while it is, and when it returns they call
    [closeServer] and return its result. *)
Definition facade (a : ReqArgs) (g : Segment) : Segment :=
  match g with
  | (w, TRequest _ pc, sp) => (w, TRender a pc, sp)
  | (w, TDone (Returned v), sp) =>
      let (w', c) := closeServer w in
      (w', TDone (Returned v), sp ++ spawned c)
  | _ => g
  end.

(** A render answered at the first attempt. *)
Definition one_answer : list Input :=
  [InResponse plain_ok; InText "<p>hello</p>"].

(** A surrounding in which every configuration is valid and kept as it is,
    every path exists, a path starting with a slash is absolute, and paths
    are left absolute. *)
Definition sample_isAbsolute (p : string) : bool := String.prefix "/" p.

Definition sample_resolve (from to : string) : string :=
  if sample_isAbsolute to then to else from +:+ "/" +:+ to.

Definition sample_relative (from to : string) : string := to.

Definition sample_constructor : Config → Construction :=
  constructor true Some (λ _, "") (λ _, true) "/project"
    sample_resolve sample_relative sample_isAbsolute (λ _ _, []) false.

Definition sample_options : PluginOptions :=
  {| opt_root := "/project/src"; opt_namespaces := [];
     opt_alterTwigEnv := []; opt_debug := VUndefined;
     opt_autoescape := VUndefined; opt_verbose := VBool false |}.

(** ** Further definitions *)

(** *** What the file system may answer during [cleanupConfigFile] *)

Inductive cleanup_answers : list Input → Prop :=
  | file_absent : cleanup_answers [InBool false]
  | exists_threw msg : cleanup_answers [InThrow msg]
  | file_removed : cleanup_answers [InBool true; InOk]
  | unlink_threw msg : cleanup_answers [InBool true; InThrow msg].


(** The renderer after [n] turns of a [sleep(250)] loop. *)
Definition sleeps (n : nat) (w : Renderer) : Renderer :=
  set_history (replicate n (EvSleep 250) ++ history w) w.

(** [inProgressRequests > config.maxConcurrency] is false. *)
Definition gate_open (w : Renderer) : Prop :=
  match maxConcurrency (config w) with
  | Some m => inProgressRequests w ≤ m
  | None => True
  end.

(** The result [request] builds from a response that is not JSON. *)
Definition plain_result (r : Response) (html : string) : JsVal :=
  VObj [("ok", VBool (res_ok r)); ("message", header_val (res_warning r));
        ("html", VStr html)].

(** The calls of [request] that ended without being counted in
    [completedRequests]. *)
Definition deficit (s : Sys) : Z :=
  totalRequests (world s) - completedRequests (world s)
  - total_of pending (threads s).

(** One turn of the event loop keeps the configuration and lets
    [inProgressRequests] grow no further than one above the ceiling [m]. *)
Definition ceiling_kept (m : Z) (w w' : Renderer) : Prop :=
  config w' = config w
  ∧ (maxConcurrency (config w) = Some m →
     inProgressRequests w' ≤ Z.max (inProgressRequests w) (m + 1)).







(** *** The constructor's base directory *)

(** The directory [validateConfig] resolves paths from: [relativeFrom]
    resolved against the working directory, the working directory when
    [relativeFrom] is missing or empty, and none when the directory given
    does not exist. *)
Definition base_dir (existsSync : string → bool) (cwd : string)
    (path_resolve : string → string → string) (c : Config) : option string :=
  match relativeFrom c with
  | Some "" | None => Some cwd
  | Some p => if existsSync p then Some (path_resolve cwd p) else None
  end.

(** *** [convertLegacyNamespacesConfig] *)

(** [o[k] = v] on the list of an object's properties: an existing property
    keeps its place, a new one goes last. *)
Fixpoint obj_set (k : string) (v : JsVal) (fields : list (string * JsVal))
  : list (string * JsVal) :=
  match fields with
  | [] => [(k, v)]
  | (k', v') :: rest =>
      if String.eqb k k' then (k', v) :: rest else (k', v') :: obj_set k v rest
  end.

(** [Object.assign(target, source)] *)
Definition obj_assign (target source : list (string * JsVal))
  : list (string * JsVal) :=
  fold_left (λ t kv, obj_set kv.1 kv.2 t) source target.

(** [namespaces[id]], for an object whose values are objects. *)
Fixpoint lookup_fields (k : string)
    (o : list (string * list (string * JsVal))) : list (string * JsVal) :=
  match o with
  | [] => []
  | (k', v) :: rest => if String.eqb k k' then v else lookup_fields k rest
  end.

(** The legacy format is an object from namespace id to configuration
    object; the result is the array of [Object.assign({ id }, value)] over
    [Object.keys(namespaces)]. *)
Definition convertLegacyNamespacesConfig
    (namespaces : list (string * list (string * JsVal)))
  : list (list (string * JsVal)) :=
  map (λ id, obj_assign [("id", VStr id)] (lookup_fields id namespaces))
    (map fst namespaces).

(** *** The plugin's [renderTemplate]: from the result to the output *)

(** Truthiness of a value. *)
Definition truthy (v : JsVal) : bool :=
  match v with
  | VUndefined | VNull => false
  | VBool b => b
  | VNum z => negb (z =? 0)
  | VStr s => negb (String.eqb s "")
  | VArr _ | VObj _ => true
  end.

(** [a || b] *)
Definition js_or (a b : JsVal) : JsVal := if truthy a then a else b.

(** [v.k] where [v] is known not to be [null] or [undefined]. *)
Definition prop_of (v : JsVal) (k : string) : JsVal :=
  default VUndefined (get_prop v k).

(** The [output] object: [None] is a property never assigned. *)
Record Output : Type := {
  out_content : option JsVal;
  out_error : option JsVal;
}.

(** The last [try]/[catch] of [renderTemplate], from the outcome of
    [render] or [renderString]; [error_name] is what [error.toString()] gives
    for an error with an empty message. *)
Definition render_output (error_name : string) (o : Outcome) : Output :=
  match o with
  | Returned results =>
      if truthy results && truthy (prop_of results "ok") then
        {| out_content := Some (js_or (prop_of results "html") (VStr ""));
           out_error := None |}
      else if truthy results then
        {| out_content := None;
           out_error :=
             Some (js_or (prop_of results "message")
                     (VStr "Unknown error during rendering")) |}
      else
        {| out_content := None;
           out_error := Some (VStr "No response from TwigRenderer") |}
  | Threw msg =>
      {| out_content := None;
         out_error := Some (js_or (VStr msg) (VStr error_name)) |}
  end.

(** *** More sample data *)

(** The worker comes up, a render fails three times; then another render
    is answered and the timer of the first fires. *)
Definition abandoned_schedule : list Action :=
  [ACall CInit; AResume 0 (InPort 8000); AResume 0 InOk;
   AResume 0 (InResponse probe_ok); AResume 0 InOk;
   ACall (CRender "a.twig" (VObj []));
   AResume 1 (InThrow "ECONNREFUSED"); AResume 1 (InThrow "ECONNREFUSED");
   AResume 1 (InThrow "ECONNREFUSED")].

Definition later_schedule : list Action :=
  [ACall (CRender "b.twig" (VObj []));
   AResume 2 (InResponse plain_ok); AResume 2 (InText "<p>b</p>");
   ATimer].

Definition abandoned : Sys :=
  default (initial sample_config)
    (play (initial sample_config) abandoned_schedule).

Definition abandoned_later : Sys :=
  default abandoned (play abandoned later_schedule).

(** A configuration with a ceiling of one, and three renders called on
    it. *)
Definition narrow_config : Config :=
  {| src_roots := ["templates"]; src_namespaces := None;
     relativeFrom := Some "/project"; alterTwigEnv := None;
     debug := VBool true; autoescape := VBool false;
     keepAlive := VBool false; verbose := VBool true;
     maxConcurrency := Some 1 |}.

Definition three_renders_schedule : list Action :=
  [ACall CInit; AResume 0 (InPort 8000); AResume 0 InOk;
   AResume 0 (InResponse probe_ok); AResume 0 InOk;
   ACall (CRender "a.twig" (VObj []));
   ACall (CRender "b.twig" (VObj []));
   ACall (CRender "c.twig" (VObj []))].

Definition three_renders : Sys :=
  default (initial narrow_config)
    (play (initial narrow_config) three_renders_schedule).

(** A surrounding like [sample_constructor]'s in which the directory
    [/project/missing] does not exist. *)
Definition sample_exists (p : string) : bool :=
  negb (String.eqb p "/project/missing").

Definition strict_constructor : Config → Construction :=
  constructor true Some (λ _, "") sample_exists "/project"
    sample_resolve sample_relative sample_isAbsolute (λ _ _, []) false.

Definition missing_root_config : Config :=
  {| src_roots := ["templates"; "missing"; "other"]; src_namespaces := None;
     relativeFrom := Some "/project"; alterTwigEnv := None;
     debug := VBool true; autoescape := VBool false;
     keepAlive := VBool false; verbose := VBool false;
     maxConcurrency := Some 5 |}.

(** A legacy namespaces object; the second value has an [id] of its own. *)
Definition legacy_namespaces : list (string * list (string * JsVal)) :=
  [("layouts", [("paths", VArr [VStr "templates/layouts"])]);
   ("components", [("id", VStr "ui"); ("recursive", VBool true);
                   ("paths", VArr [VStr "templates/components"])])].

(** *** Attempts and probes *)

(** A successful attempt, with the results [request] makes of it: the
    parsed body of a JSON response, when it is not [null] and is not a
    failure whose message has no string; or the object built from any other
    response. *)
Inductive answered : list Input → JsVal → Prop :=
  | answered_json r v :
      res_contentType r = Some "application/json" →
      v ≠ VNull → v ≠ VUndefined →
      is_false (prop_of v "ok") && to_string_throws (prop_of v "message")
      = false →
      answered [InResponse r; InJson v] v
  | answered_plain r html :
      res_contentType r ≠ Some "application/json" →
      answered [InResponse r; InText html] (plain_result r html).

(** [k] failed attempts one after the other. *)
Inductive failures : nat → list Input → Prop :=
  | failures_O : failures 0 []
  | failures_S k msg i rest :
      failed_attempt msg i → failures k rest → failures (S k) (i ++ rest).

(** A probe the worker does not pass, [fetch] rejecting or the response not
    ok, and the [sleep(100)] after it. *)
Inductive failed_probe : list Input → Prop :=
  | probe_refused msg : failed_probe [InThrow msg; InOk]
  | probe_not_ok r : res_ok r = false → failed_probe [InResponse r; InOk].

(** The probes sent, the children spawned and the kill signals sent so
    far. *)
Fixpoint probes (h : list Event) : nat :=
  match h with
  | [] => 0
  | EvProbe _ :: rest => S (probes rest)
  | _ :: rest => probes rest
  end.

Fixpoint spawns (h : list Event) : nat :=
  match h with
  | [] => 0
  | EvSpawn _ _ :: rest => S (spawns rest)
  | _ :: rest => spawns rest
  end.

Fixpoint kills (h : list Event) : nat :=
  match h with
  | [] => 0
  | EvKill _ :: rest => S (kills rest)
  | _ :: rest => kills rest
  end.

(** The renderer after [n] turns of the polling loop that did not make it
    [READY]: a sleep and the next probe each. *)
Definition polled (n : nat) (w : Renderer) : Renderer :=
  set_history
    (concat (replicate n [EvProbe (phpServerUrl w); EvSleep 100])
     ++ history w) w.

(** What a call of [request] leaves alone: timers, kill signals and
    configuration; and the state it leaves is the one it found, [STARTING]
    or [READY]. *)
Definition quiet (w w' : Renderer) : Prop :=
  timers w' = timers w
  ∧ kills (history w') = kills (history w)
  ∧ config w' = config w
  ∧ (serverState w' = serverState w
     ∨ serverState w' = STARTING ∨ serverState w' = READY).

(** A request thread, pending or done. *)
Definition request_thread (t : Thread) : bool :=
  match t with
  | TRequest _ _ | TDone _ => true
  | _ => false
  end.

(** A worker answering with a JSON body. *)
Definition json_ok : Response :=
  {| res_status := 200; res_ok := true;
     res_contentType := Some "application/json";
     res_warning := None |}.

(** A worker that is not up yet. *)
Definition probe_failed : Response :=
  {| res_status := 503; res_ok := false;
     res_contentType := None; res_warning := None |}.

(** * Properties *)

(** ** [init]: the two guards *)

(** C7. [init()] called while the state is [STARTING] returns at once and
    leaves every field of the renderer as it was: no port is allocated, no
    config file written, no worker spawned.  Called while the state is
    [STOPPING] it sets the state to [READY] and returns, and again nothing
    else changes: the registry, the child processes and the history of calls
    to the outside world are the same. *)
Theorem init_guard_starting_stopping (w : Renderer) :
  (serverState w = STARTING →
     call w CInit = (w, TDone (Returned (VStr "STARTING")), []))
  ∧ (serverState w = STOPPING →
       ∃ w', call w CInit = (w', TDone (Returned (VStr "READY")), [])
             ∧ w' = set_serverState READY w
             ∧ serverState w' = READY
             ∧ portsUsed w' = portsUsed w
             ∧ history w' = history w
             ∧ phpServer w' = phpServer w
             ∧ orphans w' = orphans w
             ∧ sharedConfigPath w' = sharedConfigPath w).
Proof.
  split; intros Hs.
  - unfold call, init_call. rewrite Hs. reflexivity.
  - exists (set_serverState READY w).
    unfold call, init_call. rewrite Hs. repeat split.
Qed.

Lemma init_guard_starting_stopping_witness :
  (serverState starting_renderer = STARTING
   ∧ call starting_renderer CInit
     = (starting_renderer, TDone (Returned (VStr "STARTING")), []))
  ∧ (serverState stopping_renderer = STOPPING
     ∧ ∃ w', call stopping_renderer CInit
             = (w', TDone (Returned (VStr "READY")), [])
             ∧ history w' = history stopping_renderer).
Proof.
  split.
  - split; [reflexivity |].
    apply (init_guard_starting_stopping starting_renderer). reflexivity.
  - split; [reflexivity |].
    destruct (init_guard_starting_stopping stopping_renderer) as [_ H].
    destruct (H eq_refl) as (w' & Hc & _ & _ & _ & Hh & _).
    exists w'. split; assumption.
Defined.

(** ** [init]: the state it returns in *)

Lemma checkServerWhileStarting_return w w' s :
  checkServerWhileStarting w = (w', InitReturn s) →
  s = serverState w' ∧ serverState w' ≠ STARTING.
Proof.
  unfold checkServerWhileStarting.
  destruct (serverState w) eqn:Hs; simpl; intros H; inversion H; subst;
    rewrite Hs; split; congruence.
Qed.

(** C4, as the code has it.  [init()] called while the state is [STARTING]
    returns at once with the state still [STARTING].  Called in any other
    state, whenever it returns, at once or after polling, the state is not
    [STARTING] and is the state it returns. *)
Theorem init_returns_not_starting (w : Renderer) :
  (serverState w = STARTING → init_call w = (w, InitReturn STARTING))
  ∧ (serverState w ≠ STARTING →
       ∀ w' s, init_call w = (w', InitReturn s) →
               s = serverState w' ∧ serverState w' ≠ STARTING)
  ∧ (∀ pc i w' s, init_resume w pc i = Some (w', InitReturn s) →
                  s = serverState w' ∧ serverState w' ≠ STARTING).
Proof.
  split; [| split].
  - intros Hs. unfold init_call. rewrite Hs. reflexivity.
  - intros Hs w' s. unfold init_call.
    destruct (serverState w) eqn:E; try congruence;
      intros H; inversion H; subst; simpl; split; congruence.
  - intros pc i w' s. destruct pc; simpl.
    + unfold getOpenPort_resume.
      destruct i; try discriminate.
      destruct (decide _); discriminate.
    + destruct i; try discriminate.
      intros H. inversion H as [H1].
      apply checkServerWhileStarting_return in H1. exact H1.
    + destruct (checkIfServerIsReady_resume w i); discriminate.
    + destruct i; try discriminate.
      intros H. inversion H as [H1].
      apply checkServerWhileStarting_return in H1. exact H1.
Qed.

(** From [STOPPED], a worker that answers the first probe lets [init]
    return [READY]. *)
Lemma init_returns_not_starting_witness :
  serverState (new_renderer sample_config) ≠ STARTING
  ∧ run_call (new_renderer sample_config) CInit (startup 8000)
    = (ready_renderer sample_config, TDone (Returned (VStr "READY")), [])
  ∧ serverState (ready_renderer sample_config) ≠ STARTING
  ∧ serverState starting_renderer = STARTING
  ∧ init_call starting_renderer = (starting_renderer, InitReturn STARTING).
Proof.
  split; [discriminate |].
  split; [vm_compute; reflexivity |].
  split.
  - pose (w3 := (run_call (new_renderer sample_config) CInit
                   [InPort 8000; InOk; InResponse probe_ok]).1.1).
    destruct (init_returns_not_starting w3) as (_ & _ & H).
    destruct (H ISleep InOk (ready_renderer sample_config) READY) as [_ Hne].
    + vm_compute. reflexivity.
    + exact Hne.
  - split; [reflexivity |].
    apply (init_returns_not_starting starting_renderer). reflexivity.
Defined.

(** C4 as stated fails: called while the worker is starting, [init()]
    returns and the state is [STARTING]. *)
Lemma init_returns_while_starting :
  serverState starting_renderer = STARTING
  ∧ call starting_renderer CInit
    = (starting_renderer, TDone (Returned (VStr "STARTING")), [])
  ∧ ¬ (∀ w w' o sp, call w CInit = (w', TDone o, sp) →
                     serverState w' ≠ STARTING).
Proof.
  split; [reflexivity |]. split; [vm_compute; reflexivity |].
  intros H.
  apply (H starting_renderer starting_renderer
           (Returned (VStr "STARTING")) []); vm_compute; reflexivity.
Qed.

(** ** [request]: the result of an attempt *)

(** C5, as the code has it.  When the response to an attempt has a content
    type other than [application/json], is ok and has no [Warning] header,
    [request] returns [{ok: true, message: null, html: <body text>}]: the
    message is the absent header's [null]; the attempt counts as
    completed. *)
Theorem request_plain_response (a : ReqArgs) (w : Renderer) (attempt : nat)
    (r : Response) (html : string) :
  res_contentType r ≠ Some "application/json" →
  res_ok r = true →
  res_warning r = None →
  run w (TRequest a (RFetch attempt)) [InResponse r; InText html]
  = (set_counters (inProgressRequests w - 1) (totalRequests w)
       (completedRequests w + 1) w,
     TDone (Returned (VObj [("ok", VBool true); ("message", VNull);
                            ("html", VStr html)])),
     []).
Proof.
  intros Hct Hok Hw. simpl.
  destruct (decide (res_contentType r = Some "application/json"));
    [contradiction |].
  simpl. rewrite Hok, Hw. reflexivity.
Qed.

Lemma request_plain_response_witness :
  res_contentType plain_ok ≠ Some "application/json"
  ∧ res_ok plain_ok = true
  ∧ res_warning plain_ok = None
  ∧ run (ready_renderer sample_config) (TRequest meta_args (RFetch 0))
      [InResponse plain_ok; InText "<p>hello</p>"]
    = (set_counters (inProgressRequests (ready_renderer sample_config) - 1)
         (totalRequests (ready_renderer sample_config))
         (completedRequests (ready_renderer sample_config) + 1)
         (ready_renderer sample_config),
       TDone (Returned (VObj [("ok", VBool true); ("message", VNull);
                              ("html", VStr "<p>hello</p>")])),
       []).
Proof.
  split; [discriminate |]. split; [reflexivity |]. split; [reflexivity |].
  apply request_plain_response; [discriminate | reflexivity | reflexivity].
Defined.

(** C5 as stated fails: on such a response the message of the result is
    [null], not the empty string. *)
Lemma request_plain_response_message_null :
  outcome (run_call (ready_renderer sample_config) (CRequest meta_args)
             [InResponse plain_ok; InText "<p>hello</p>"])
  = Some (Returned (VObj [("ok", VBool true); ("message", VNull);
                          ("html", VStr "<p>hello</p>")]))
  ∧ outcome (run_call (ready_renderer sample_config) (CRequest meta_args)
               [InResponse plain_ok; InText "<p>hello</p>"])
    ≠ Some (Returned (VObj [("ok", VBool true); ("message", VStr "");
                            ("html", VStr "<p>hello</p>")])).
Proof.
  split; [vm_compute; reflexivity |].
  vm_compute. discriminate.
Qed.

(** ** [request]: failed results and their message *)






















(** ** Segments, case by case *)

(** Unfold every method down to the fields it reads and writes. *)
Ltac unfold_model :=
  unfold resume, call, render, renderString, getMeta, of_render, of_request,
    of_init, of_cleanup, request_resume, request_call, after_init, gate_ready,
    gate_concurrency, attempt_ok, attempt_failed, retry_loop, request_end,
    init_resume, init_call, getOpenPort_resume, getOpenPort_call,
    checkServerWhileStarting, checkIfServerIsReady_resume, spawn,
    closeServer, schedule_recheck, on_timer, on_exit, on_close, stop_call,
    after_cleanup, await_cleanup, cleanupConfigFile_call,
    cleanupConfigFile_resume, kill_server, spawned in *.

Ltac split_cases := repeat (case_match; simplify_eq/=).

Lemma run_done w o inputs : run w (TDone o) inputs = (w, TDone o, []).
Proof. induction inputs as [| i rest IH]; simpl; [reflexivity | exact IH]. Qed.

Lemma run_app inputs : ∀ w t more,
  run w t (inputs ++ more)
  = let '(w1, t1, sp) := run w t inputs in
    let '(w2, t2, sp') := run w1 t1 more in (w2, t2, sp ++ sp').
Proof.
  induction inputs as [| i rest IH]; intros w t more; simpl.
  - destruct (run w t more) as [[w2 t2] sp']. reflexivity.
  - destruct (resume w t i) as [[[w1 t1] sp] |]; [| apply IH].
    rewrite IH.
    destruct (run w1 t1 rest) as [[w2 t2] sp2].
    destruct (run w2 t2 more) as [[w3 t3] sp3].
    rewrite app_assoc. reflexivity.
Qed.

Lemma run_call_app w c inputs more :
  run_call w c (inputs ++ more)
  = let '(w1, t1, sp) := run_call w c inputs in
    let '(w2, t2, sp') := run w1 t1 more in (w2, t2, sp ++ sp').
Proof.
  unfold run_call. destruct (call w c) as [[w0 t0] sp0].
  rewrite run_app.
  destruct (run w0 t0 inputs) as [[w1 t1] sp1].
  destruct (run w1 t1 more) as [[w2 t2] sp2].
  rewrite app_assoc. reflexivity.
Qed.

(** *** The counters *)

Lemma call_counts w c w' t sp :
  call w c = (w', t, sp) →
  totalRequests w' = totalRequests w + (if is_request c then 1 else 0)
  ∧ completedRequests w' = completedRequests w
  ∧ pending t ≤ (if is_request c then 1 else 0)
  ∧ total_of pending sp = 0.
Proof.
  intros H. destruct c; unfold_model; split_cases; repeat split; lia.
Qed.

Lemma call_in_progress w c w' t sp :
  call w c = (w', t, sp) →
  inProgressRequests w' = inProgressRequests w + in_attempt t
  ∧ total_of in_attempt sp = 0.
Proof.
  intros H. destruct c; unfold_model; split_cases; repeat split; lia.
Qed.

Lemma resume_in_progress w t i w' t' sp :
  resume w t i = Some (w', t', sp) →
  inProgressRequests w' - in_attempt t' = inProgressRequests w - in_attempt t
  ∧ total_of in_attempt sp = 0.
Proof.
  intros H. unfold_model. split_cases; repeat split; lia.
Qed.

Lemma resume_counts w t i w' t' sp :
  resume w t i = Some (w', t', sp) →
  totalRequests w' = totalRequests w
  ∧ completedRequests w ≤ completedRequests w'
  ∧ completedRequests w' + pending t' ≤ completedRequests w + pending t
  ∧ total_of pending sp = 0.
Proof.
  intros H. unfold_model. split_cases; repeat split; lia.
Qed.

Lemma resume_completes w t i w' t' sp :
  resume w t i = Some (w', t', sp) →
  completedRequests w' = completedRequests w
  ∨ (completedRequests w' = completedRequests w + 1
     ∧ pending t = 1 ∧ pending t' = 0
     ∧ match i with InJson _ | InText _ => True | _ => False end).
Proof.
  intros H. unfold_model.
  split_cases; first [left; reflexivity | right; repeat split; lia].
Qed.

Lemma events_counts w :
  (totalRequests (on_close w) = totalRequests w
   ∧ completedRequests (on_close w) = completedRequests w)
  ∧ (totalRequests (on_exit w).1 = totalRequests w
     ∧ completedRequests (on_exit w).1 = completedRequests w)
  ∧ (totalRequests (on_timer w).1 = totalRequests w
     ∧ completedRequests (on_timer w).1 = completedRequests w).
Proof. unfold_model. split_cases; repeat split. Qed.

Lemma events_in_progress w :
  inProgressRequests (on_close w) = inProgressRequests w
  ∧ inProgressRequests (on_exit w).1 = inProgressRequests w
  ∧ inProgressRequests (on_timer w).1 = inProgressRequests w.
Proof. unfold_model. split_cases; repeat split. Qed.

Lemma run_counts inputs : ∀ w t w' t' sp,
  run w t inputs = (w', t', sp) →
  totalRequests w' = totalRequests w
  ∧ completedRequests w ≤ completedRequests w'
  ∧ completedRequests w' + pending t' ≤ completedRequests w + pending t.
Proof.
  induction inputs as [| i rest IH]; intros w t w' t' sp; simpl.
  - intros H. injection H as <- <- <-. lia.
  - destruct (resume w t i) as [[[w1 t1] sp1] |] eqn:E; [| apply IH].
    destruct (run w1 t1 rest) as [[w2 t2] sp2] eqn:E2.
    intros H. injection H as <- <- <-.
    apply resume_counts in E. apply IH in E2. lia.
Qed.

(** *** The requests sent *)

Lemma call_fetch_count w c w' t sp :
  call w c = (w', t, sp) → fetch_count (fetches (history w)) w' t.
Proof.
  intros H. destruct c; unfold_model; unfold fetch_count, attempts in *;
    split_cases; repeat split; lia.
Qed.

Lemma resume_fetch_count base w t i w' t' sp :
  fetch_count base w t →
  resume w t i = Some (w', t', sp) →
  fetch_count base w' t'.
Proof.
  intros Hf H. unfold_model. unfold fetch_count, attempts in *.
  split_cases; repeat split; try lia;
    repeat match goal with
           | H : (_ <? _)%nat = true |- _ => apply Nat.ltb_lt in H
           | H : (_ <? _)%nat = false |- _ => apply Nat.ltb_ge in H
           end; lia.
Qed.

Lemma run_fetch_count base inputs : ∀ w t w' t' sp,
  fetch_count base w t →
  run w t inputs = (w', t', sp) →
  fetch_count base w' t'.
Proof.
  induction inputs as [| i rest IH]; intros w t w' t' sp Hf; simpl.
  - intros H. injection H as <- <- <-. exact Hf.
  - destruct (resume w t i) as [[[w1 t1] sp1] |] eqn:E; [| apply IH, Hf].
    destruct (run w1 t1 rest) as [[w2 t2] sp2] eqn:E2.
    intros H. injection H as <- <- <-.
    eapply IH; [| exact E2]. eapply resume_fetch_count; eauto.
Qed.

Lemma fetch_count_bound base w t :
  fetch_count base w t →
  (base ≤ fetches (history w) ≤ base + attempts)%nat.
Proof.
  unfold fetch_count, attempts. split_cases; lia.
Qed.

(** ** [request]: the retry loop *)

Lemma failed_attempt_run a w n msg i rest :
  failed_attempt msg i →
  run w (TRequest a (RFetch n)) (i ++ rest)
  = let '(w1, t1, _) := of_request a (attempt_failed a n msg w) in
    run w1 t1 rest.
Proof.
  assert (Hnil : ∀ g : Segment, (let '(w2, t2, sp') := g in (w2, t2, [] ++ sp'))
                                = g) by (intros [[? ?] ?]; reflexivity).
  intros [| r].
  - cbn [app run resume request_resume fmap option_fmap option_map].
    destruct (of_request a (attempt_failed a n msg w)) as [[w1 t1] sp1] eqn:E.
    assert (sp1 = []) as ->.
    { unfold of_request in E. destruct (attempt_failed a n msg w) as [? [| |]];
        injection E as <- <- <-; reflexivity. }
    apply Hnil.
  - cbn [app run resume request_resume fmap option_fmap option_map].
    destruct (decide (res_contentType r = Some "application/json"));
      cbn [of_request fmap option_fmap option_map run resume request_resume];
      destruct (of_request a (attempt_failed a n msg w))
        as [[w1 t1] sp1] eqn:E;
      (assert (sp1 = []) as ->;
       [ unfold of_request in E;
         destruct (attempt_failed a n msg w) as [? [| |]];
         injection E as <- <- <-; reflexivity |]);
      rewrite !Hnil; reflexivity.
Qed.

(** C2.  Take any request whose first attempt is in flight.  If that
    attempt and the two after it fail, [request] returns the value
    [{ok: false, message: <the last error's message>}] (it does not throw),
    [completedRequests] is what it was before the call, [totalRequests] is
    one more, and exactly three requests were sent to the worker.  Whatever
    the outside world answers, [request] sends at most three. *)
Theorem request_three_failures (w : Renderer) (a : ReqArgs)
    (pre i1 i2 i3 : list Input) (m1 m2 m3 : string) (w1 : Renderer) :
  run_call w (CRequest a) pre = (w1, TRequest a (RFetch 0), []) →
  failed_attempt m1 i1 →
  failed_attempt m2 i2 →
  failed_attempt m3 i3 →
  (∃ w', run_call w (CRequest a) (pre ++ i1 ++ i2 ++ i3)
         = (w', TDone (Returned (VObj [("ok", VBool false);
                                       ("message", VStr m3)])), [])
         ∧ completedRequests w' = completedRequests w
         ∧ totalRequests w' = totalRequests w + 1
         ∧ inProgressRequests w' = inProgressRequests w1 - 1
         ∧ fetches (history w') = (fetches (history w) + 3)%nat)
  ∧ (∀ inputs,
       (fetches (history (run_call w (CRequest a) inputs).1.1)
        ≤ fetches (history w) + attempts)%nat).
Proof.
  intros Hpre H1 H2 H3. split.
  - (* the counters when the first attempt starts *)
    assert (Hc : totalRequests w1 = totalRequests w + 1
                 ∧ completedRequests w1 = completedRequests w
                 ∧ fetches (history w1) = (fetches (history w) + 1)%nat).
    { unfold run_call in Hpre.
      destruct (call w (CRequest a)) as [[w0 t0] sp0] eqn:Ec.
      destruct (run w0 t0 pre) as [[w2 t2] sp2] eqn:Er.
      injection Hpre as -> -> Hsp.
      pose proof (call_counts _ _ _ _ _ Ec) as (Ht & Hcomp & Hp & _).
      pose proof (run_counts _ _ _ _ _ _ Er) as (Ht' & Hle & Hle').
      pose proof (call_fetch_count _ _ _ _ _ Ec) as Hf.
      pose proof (run_fetch_count _ _ _ _ _ _ _ Hf Er) as [_ Hf'].
      simpl in *. repeat split; lia. }
    destruct Hc as (Ht & Hcomp & Hf).
    rewrite run_call_app, Hpre.
    rewrite (failed_attempt_run a w1 0 m1 i1 _ H1).
    cbn [attempt_failed retry_loop attempts Nat.ltb Nat.leb of_request].
    rewrite (failed_attempt_run a _ 1 m2 i2 _ H2).
    cbn [attempt_failed retry_loop attempts Nat.ltb Nat.leb of_request].
    rewrite <- (app_nil_r i3).
    rewrite (failed_attempt_run a _ 2 m3 i3 _ H3).
    cbn [attempt_failed retry_loop attempts Nat.ltb Nat.leb of_request
           request_end get_prop run].
    eexists. split; [reflexivity |].
    simpl. repeat split; lia.
  - intros inputs. unfold run_call.
    destruct (call w (CRequest a)) as [[w0 t0] sp0] eqn:Ec.
    destruct (run w0 t0 inputs) as [[w2 t2] sp2] eqn:Er.
    pose proof (call_fetch_count _ _ _ _ _ Ec) as Hf.
    pose proof (run_fetch_count _ _ _ _ _ _ _ Hf Er) as Hf'.
    apply fetch_count_bound in Hf'. simpl. lia.
Qed.

Lemma request_three_failures_witness :
  ∃ w', run_call (new_renderer sample_config) (CRequest meta_args)
          (startup 8000
           ++ [InThrow "ECONNREFUSED"]
           ++ [InResponse plain_ok; InThrow "Premature close"]
           ++ [InThrow "socket hang up"])
        = (w', TDone (Returned (VObj [("ok", VBool false);
                                      ("message", VStr "socket hang up")])),
           [])
        ∧ completedRequests w' = 0
        ∧ totalRequests w' = 1
        ∧ fetches (history w') = 3%nat.
Proof.
  destruct (request_three_failures (new_renderer sample_config) meta_args
              (startup 8000) [InThrow "ECONNREFUSED"]
              [InResponse plain_ok; InThrow "Premature close"]
              [InThrow "socket hang up"]
              "ECONNREFUSED" "Premature close" "socket hang up"
              (run_call (new_renderer sample_config) (CRequest meta_args)
                 (startup 8000)).1.1)
    as [(w' & Hr & Hc & Ht & _ & Hf) _].
  - vm_compute. reflexivity.
  - constructor.
  - constructor.
  - constructor.
  - exists w'. repeat split; assumption.
Defined.

(** ** The counters of a renderer at work *)

Lemma total_of_app f (l1 l2 : list Thread) :
  total_of f (l1 ++ l2) = total_of f l1 + total_of f l2.
Proof. induction l1 as [| t l1 IH]; simpl; lia. Qed.

Lemma total_of_insert f (l : list Thread) (n : nat) (t t' : Thread) :
  l !! n = Some t →
  total_of f (<[n:=t']> l) = total_of f l - f t + f t'.
Proof.
  revert n. induction l as [| x l IH]; intros [| n] H; simpl in *;
    try discriminate.
  - injection H as ->. lia.
  - rewrite (IH n H). lia.
Qed.

Lemma total_of_spawned f (c : option CleanupPc) :
  (∀ pc, f (TCleanup pc) = 0) →
  total_of f (spawned c) = 0.
Proof. intros H. destruct c as [pc |]; simpl; [rewrite H |]; lia. Qed.

Lemma counters_inv_step s s' :
  counters_inv s → sys_step s s' → counters_inv s'.
Proof.
  unfold counters_inv. intros (H0 & Hle & Hin) Hstep.
  destruct Hstep as [s c w t sp Hc | s n t i w t' sp Hn Hr | s Hl
                    | s w c Hl He | s n w c Ht Hf]; simpl.
  - pose proof (call_in_progress _ _ _ _ _ Hc) as (Hi & Hisp).
    apply call_counts in Hc as (Ht & Hc & Hp & Hsp).
    change (t :: sp) with ([t] ++ sp). rewrite !total_of_app. simpl.
    destruct (is_request c); lia.
  - pose proof (resume_in_progress _ _ _ _ _ _ Hr) as (Hi & Hisp).
    apply resume_counts in Hr as (Ht & Hc & Hp & Hsp).
    rewrite !total_of_app, !(total_of_insert _ _ _ _ _ Hn). lia.
  - lia.
  - pose proof (events_counts (world s)) as (_ & [Ht Hc] & _).
    pose proof (events_in_progress (world s)) as (_ & Hi & _).
    rewrite He in Ht, Hc, Hi. simpl in Ht, Hc, Hi.
    rewrite !total_of_app, !total_of_spawned by reflexivity. lia.
  - pose proof (events_counts (set_timers n (world s))) as (_ & _ & [Ht' Hc]).
    pose proof (events_in_progress (set_timers n (world s))) as (_ & _ & Hi).
    rewrite Hf in Ht', Hc, Hi. simpl in Ht', Hc, Hi.
    rewrite !total_of_app, !total_of_spawned by reflexivity. lia.
Qed.

Lemma counters_inv_reachable c s : reachable c s → counters_inv s.
Proof.
  unfold reachable. revert s. apply rtc_ind_r.
  - unfold counters_inv. simpl. lia.
  - intros y z _ Hstep IH. eapply counters_inv_step; eauto.
Qed.

Lemma total_of_pending_nonneg (l : list Thread) : 0 ≤ total_of pending l.
Proof. induction l as [| [] l IH]; simpl; lia. Qed.

Lemma total_of_in_attempt_bounds (l : list Thread) :
  0 ≤ total_of in_attempt l ≤ total_of pending l.
Proof.
  induction l as [| t l IH]; simpl; [lia |].
  assert (0 ≤ in_attempt t ≤ pending t)
    by (destruct t as [| ? [] | ? [] | |]; simpl; lia).
  lia.
Qed.

(** C1.  In every state a renderer can be observed in, whatever calls of
    [render], [renderString], [getMeta], [request], [init] and [stop] were
    made and however they interleaved with one another, with the worker's
    events and with timers, [0 ≤ completedRequests ≤ totalRequests].  A
    call that goes through [request] adds exactly one to [totalRequests]
    when it is made, and nothing else ever changes [totalRequests]; a call
    adds to [completedRequests] at most once, by one, in the segment that
    receives the body of a response, and its [request] is over after it.
    [inProgressRequests] is the number of calls inside an attempt, so it is
    never negative and is zero when no attempt is under way. *)
Theorem completed_le_total (c : Config) :
  (∀ s, reachable c s →
        0 ≤ completedRequests (world s) ≤ totalRequests (world s)
        ∧ inProgressRequests (world s) = total_of in_attempt (threads s)
        ∧ 0 ≤ inProgressRequests (world s)
            ≤ totalRequests (world s) - completedRequests (world s))
  ∧ (∀ w k,
       totalRequests (call w k).1.1
       = totalRequests w + (if is_request k then 1 else 0)
       ∧ completedRequests (call w k).1.1 = completedRequests w)
  ∧ (∀ w t i w' t' sp,
       resume w t i = Some (w', t', sp) →
       totalRequests w' = totalRequests w
       ∧ (completedRequests w' = completedRequests w
          ∨ (completedRequests w' = completedRequests w + 1
             ∧ pending t = 1 ∧ pending t' = 0
             ∧ match i with InJson _ | InText _ => True | _ => False end)))
  ∧ (∀ w,
       (totalRequests (on_close w) = totalRequests w
        ∧ completedRequests (on_close w) = completedRequests w)
       ∧ (totalRequests (on_exit w).1 = totalRequests w
          ∧ completedRequests (on_exit w).1 = completedRequests w)
       ∧ (totalRequests (on_timer w).1 = totalRequests w
          ∧ completedRequests (on_timer w).1 = completedRequests w)).
Proof.
  split; [| split; [| split]].
  - intros s Hs. apply counters_inv_reachable in Hs as (H0 & Hle & Hin).
    pose proof (total_of_pending_nonneg (threads s)).
    pose proof (total_of_in_attempt_bounds (threads s)). lia.
  - intros w k. destruct (call w k) as [[w' t] sp] eqn:E.
    apply call_counts in E as (Ht & Hc & _). simpl. split; assumption.
  - intros w t i w' t' sp H. split.
    + apply resume_counts in H as [Ht _]. exact Ht.
    + eapply resume_completes, H.
  - apply events_counts.
Qed.

Lemma act_step s a s' : act s a = Some s' → sys_step s s'.
Proof.
  destruct a as [c | n i | | |]; simpl.
  - destruct (call (world s) c) as [[w t] sp] eqn:E.
    intros H. injection H as <-. eapply step_call, E.
  - destruct (threads s !! n) as [t |] eqn:En; [| discriminate].
    destruct (resume (world s) t i) as [[[w t'] sp] |] eqn:E;
      [| discriminate].
    intros H. injection H as <-. eapply step_resume; eauto.
  - destruct (listening (world s)) eqn:El; [| discriminate].
    intros H. injection H as <-. apply step_close, El.
  - destruct (listening (world s)) eqn:El; [| discriminate].
    destruct (on_exit (world s)) as [w c] eqn:E.
    intros H. injection H as <-. eapply step_exit; eauto.
  - destruct (timers (world s)) as [| n] eqn:Et; [discriminate |].
    destruct (on_timer (set_timers n (world s))) as [w c] eqn:E.
    intros H. injection H as <-. eapply step_timer; eauto.
Qed.

Lemma play_steps schedule : ∀ s s',
  play s schedule = Some s' → rtc sys_step s s'.
Proof.
  induction schedule as [| a rest IH]; intros s s'; simpl.
  - intros H. injection H as <-. apply rtc_refl.
  - destruct (act s a) as [s1 |] eqn:E; [| discriminate].
    intros H. eapply rtc_l; [eapply act_step, E | apply IH, H].
Qed.

Lemma two_renders_reachable : reachable sample_config two_renders.
Proof.
  apply (play_steps two_renders_schedule). vm_compute. reflexivity.
Qed.

Lemma completed_le_total_witness :
  reachable sample_config two_renders
  ∧ completedRequests (world two_renders) = 1
  ∧ totalRequests (world two_renders) = 2
  ∧ 0 ≤ completedRequests (world two_renders)
      ≤ totalRequests (world two_renders).
Proof.
  split; [exact two_renders_reachable |].
  split; [vm_compute; reflexivity |]. split; [vm_compute; reflexivity |].
  apply (completed_le_total sample_config). exact two_renders_reachable.
Defined.

(** ** The port registry *)

Ltac port_cases :=
  first [ left; split; reflexivity
        | right; eexists; split; [eassumption | split; reflexivity] ].

Lemma call_ports w c : port_step w (call w c).1.1.
Proof.
  unfold port_step. destruct c; unfold_model; split_cases; port_cases.
Qed.

Lemma resume_ports w t i w' t' sp :
  resume w t i = Some (w', t', sp) → port_step w w'.
Proof.
  intros H. unfold port_step. unfold_model. split_cases; port_cases.
Qed.

Lemma events_ports w :
  port_step w (on_close w)
  ∧ port_step w (on_exit w).1
  ∧ (∀ n, port_step w (on_timer (set_timers n w)).1).
Proof.
  unfold port_step. repeat split; intros; unfold_model;
    split_cases; port_cases.
Qed.

Lemma sys_step_ports s s' : sys_step s s' → port_step (world s) (world s').
Proof.
  intros [s0 c w t sp Hc | s0 n t i w t' sp Hn Hr | s0 Hl
         | s0 w c Hl He | s0 n w c Ht Hf]; simpl.
  - pose proof (call_ports (world s0) c) as H. rewrite Hc in H. exact H.
  - eapply resume_ports, Hr.
  - apply events_ports.
  - pose proof (events_ports (world s0)) as (_ & H & _).
    rewrite He in H. exact H.
  - pose proof (events_ports (world s0)) as (_ & _ & H).
    specialize (H n). rewrite Hf in H. exact H.
Qed.

Lemma port_step_inv w w' : ports_inv w → port_step w w' → ports_inv w'.
Proof.
  unfold ports_inv.
  intros [Hnd Hin] [[Hp Hr] | (p & Hfresh & Hp & Hr)]; rewrite Hp, Hr.
  - split; assumption.
  - split.
    + apply NoDup_cons. split; [| exact Hnd].
      intros Hp'. apply Hfresh, Hin, Hp'.
    + intros q Hq. apply elem_of_cons in Hq as [-> | Hq].
      * apply elem_of_union_l, elem_of_singleton. reflexivity.
      * apply elem_of_union_r, Hin, Hq.
Qed.

Lemma ports_inv_reachable c s : reachable c s → ports_inv (world s).
Proof.
  unfold reachable. revert s. apply rtc_ind_r.
  - split; simpl; [apply NoDup_nil_2 | intros p Hp].
    exfalso. eapply not_elem_of_nil, Hp.
  - intros y z _ Hstep IH.
    eapply port_step_inv; [exact IH | apply sys_step_ports, Hstep].
Qed.

Lemma replicate_shift {A : Type} (n : nat) (x : A) (l : list A) :
  replicate n x ++ x :: l = x :: replicate n x ++ l.
Proof. induction n as [| n IH]; simpl; [reflexivity | rewrite IH; reflexivity]. Qed.

Lemma getOpenPort_loop taken : ∀ w p,
  (∀ q, q ∈ taken → q ∈ portsUsed w) →
  p ∉ portsUsed w →
  run w (TInit IGetPort) (InPort <$> taken ++ [p])
  = (log (EvWriteFile (SharedConfig p))
       (set_port p
          (log (EvPortReturned p)
             (add_port p
                (set_history (replicate (length taken) EvGetPort ++ history w)
                   w)))),
     TInit IWriteFile, []).
Proof.
  induction taken as [| q taken IH]; intros w p Htaken Hfresh.
  - simpl. destruct (decide (p ∈ portsUsed w)); [contradiction |].
    simpl. destruct w; reflexivity.
  - cbn [app fmap list_fmap run resume init_resume getOpenPort_resume].
    destruct (decide (q ∈ portsUsed w)) as [_ | Hq];
      [| exfalso; apply Hq, Htaken; left].
    cbn [fmap option_fmap option_map of_init].
    change (InPort <$> taken ++ [p]) with (InPort <$> (taken ++ [p])) in IH.
    rewrite (IH (log EvGetPort w) p).
    + destruct w; simpl. rewrite replicate_shift. reflexivity.
    + intros q' Hq'. simpl. apply Htaken. right. exact Hq'.
    + exact Hfresh.
Qed.

(** [init] does return: from [STOPPED] or [READY], given a port outside the
    registry and a worker that answers the first probe, it returns
    [READY]. *)
Lemma init_returns_ready (w : Renderer) (p : N) :
  serverState w = STOPPED ∨ serverState w = READY →
  (p ∉ portsUsed w) →
  ∃ w', run_call w CInit (startup p)
        = (w', TDone (Returned (VStr "READY")), [])
        ∧ serverState w' = READY
        ∧ phpServerPort w' = Some p.
Proof.
  intros Hs Hp.
  assert (Hcall : call w CInit
                  = (getOpenPort_call (set_serverState STARTING w),
                     TInit IGetPort, []))
    by (unfold call, init_call; destruct Hs as [-> | ->]; reflexivity).
  unfold run_call. rewrite Hcall.
  change (startup p)
    with ((InPort <$> [] ++ [p]) ++ [InOk; InResponse probe_ok; InOk]).
  rewrite run_app.
  rewrite (getOpenPort_loop [] _ p); [| intros q Hq; inversion Hq | exact Hp].
  cbn [run resume init_resume fmap option_fmap option_map of_init].
  unfold checkServerWhileStarting, spawn.
  cbn [serverState log set_children set_port add_port set_history
         getOpenPort_call set_serverState state_eqb].
  cbn [run resume init_resume fmap option_fmap option_map of_init
         checkIfServerIsReady_resume probe_ok res_ok].
  unfold checkServerWhileStarting.
  cbn [serverState log set_children set_port add_port set_history
         getOpenPort_call set_serverState state_eqb of_init app].
  eexists. split; [reflexivity |]. split; reflexivity.
Qed.

(** C8.  [getOpenPort] returns a port only when it is not in [portsUsed],
    and the port is in [portsUsed] when it returns.  While the OS offers
    ports of the registry, [getOpenPort] asks again, once per such port, and
    it takes the first port outside the registry.  Every turn of the event
    loop leaves the registry alone or adds the one port returned in it, so
    the registry only grows; and in every state a renderer can be observed
    in, over any number of restarts, the ports returned so far are pairwise
    distinct and all in the registry. *)
Theorem ports_never_reused (c : Config) :
  (∀ w i w' p,
     getOpenPort_resume w i = Some (w', PortReturn p) →
     (p ∉ portsUsed w) ∧ p ∈ portsUsed w')
  ∧ (∀ w taken p,
       (∀ q, q ∈ taken → q ∈ portsUsed w) →
       (p ∉ portsUsed w) →
       ∃ w', run w (TInit IGetPort) (InPort <$> taken ++ [p])
             = (w', TInit IWriteFile, [])
             ∧ phpServerPort w' = Some p
             ∧ portsUsed w' = {[p]} ∪ portsUsed w
             ∧ history w'
               = EvWriteFile (SharedConfig p) :: EvPortReturned p
                 :: replicate (length taken) EvGetPort ++ history w)
  ∧ (∀ s s', sys_step s s' →
             port_step (world s) (world s')
             ∧ portsUsed (world s) ⊆ portsUsed (world s'))
  ∧ (∀ s, reachable c s →
          NoDup (ports_returned (history (world s)))
          ∧ (∀ p, p ∈ ports_returned (history (world s)) →
                  p ∈ portsUsed (world s))).
Proof.
  split; [| split; [| split]].
  - intros w i w' p. unfold getOpenPort_resume.
    destruct i; try discriminate.
    destruct (decide (p0 ∈ portsUsed w)) as [| Hfresh]; [discriminate |].
    intros H. injection H as <- <-. split; [exact Hfresh |].
    simpl. apply elem_of_union_l, elem_of_singleton. reflexivity.
  - intros w taken p Htaken Hfresh. eexists.
    split; [apply getOpenPort_loop; assumption |].
    repeat split.
  - intros s s' Hstep. apply sys_step_ports in Hstep as Hp.
    split; [exact Hp |].
    destruct Hp as [[-> _] | (p & _ & -> & _)]; [reflexivity |].
    apply union_subseteq_r.
  - intros s Hs. apply ports_inv_reachable in Hs. exact Hs.
Qed.

Lemma ports_never_reused_witness :
  reachable sample_config restarted
  ∧ ports_returned (history (world restarted)) = [8001%N; 8000%N]
  ∧ NoDup (ports_returned (history (world restarted)))
  ∧ (∀ p, p ∈ ports_returned (history (world restarted)) →
          p ∈ portsUsed (world restarted))
  ∧ (8000%N ∈ portsUsed (ready_renderer sample_config)
     ∧ (8001%N ∉ portsUsed (ready_renderer sample_config))
     ∧ ∃ w', run (ready_renderer sample_config) (TInit IGetPort)
               [InPort 8000; InPort 8001]
             = (w', TInit IWriteFile, [])
             ∧ phpServerPort w' = Some 8001%N).
Proof.
  assert (Hr : reachable sample_config restarted)
    by (apply (play_steps restart_schedule); vm_compute; reflexivity).
  assert (H0 : 8000%N ∈ portsUsed (ready_renderer sample_config))
    by (vm_compute; reflexivity).
  assert (H1 : 8001%N ∉ portsUsed (ready_renderer sample_config))
    by (vm_compute; discriminate).
  split; [exact Hr |]. split; [vm_compute; reflexivity |].
  destruct (ports_never_reused sample_config) as (_ & Hloop & _ & Hinv).
  destruct (Hinv restarted Hr) as [Hnd Hin].
  split; [exact Hnd |]. split; [exact Hin |].
  split; [exact H0 |]. split; [exact H1 |].
  destruct (Hloop (ready_renderer sample_config) [8000%N] 8001%N)
    as (w' & Hrun & Hport & _).
  - intros q Hq. apply list_elem_of_singleton in Hq as ->. exact H0.
  - exact H1.
  - exists w'. split; assumption.
Defined.

(** ** [render] and [renderString] *)

Lemma run_facade a inputs : ∀ w pc,
  run w (TRender a pc) inputs = facade a (run w (TRequest a pc) inputs).
Proof.
  induction inputs as [| i rest IH]; intros w pc; [reflexivity |].
  cbn [run resume].
  destruct (request_resume a w pc i) as [[w1 [pc1 | v | msg]] |];
    cbn [fmap option_fmap option_map of_render of_request].
  - rewrite IH. destruct (run w1 (TRequest a pc1) rest) as [[w2 t2] sp2].
    cbn [app]. destruct (facade a (w2, t2, sp2)) as [[w3 t3] sp3].
    reflexivity.
  - destruct (closeServer w1) as [w' c] eqn:E.
    rewrite !run_done. simpl. rewrite E, app_nil_r. reflexivity.
  - rewrite !run_done. reflexivity.
  - apply IH.
Qed.

Lemma run_call_facade a w inputs :
  (let '(w1, t1, sp) := of_render a (request_call a w) in
   let '(w2, t2, sp') := run w1 t1 inputs in (w2, t2, sp ++ sp'))
  = facade a (run_call w (CRequest a) inputs).
Proof.
  unfold run_call, call.
  destruct (request_call a w) as [w1 [pc | v | msg]];
    cbn [of_render of_request].
  - rewrite run_facade.
    destruct (run w1 (TRequest a pc) inputs) as [[w2 t2] sp2].
    cbn [app]. destruct (facade a (w2, t2, sp2)) as [[w3 t3] sp3].
    reflexivity.
  - destruct (closeServer w1) as [w' c] eqn:E.
    rewrite !run_done. simpl. rewrite E, app_nil_r. reflexivity.
  - rewrite !run_done. reflexivity.
Qed.

Lemma outcome_facade a g : outcome (facade a g) = outcome g.
Proof.
  destruct g as [[w [pc | a' pc | a' pc | pc | [v | msg]]] sp];
    simpl; try reflexivity.
  destruct (closeServer w). reflexivity.
Qed.

(** C9, as the code has it.  [render(templatePath, data)] awaits
    [request("renderFile", {template: templatePath, data})] and
    [renderString(templateSource, data)] awaits
    [request("renderString", {template: templateSource, data})], where a
    [data] that is missing or [undefined] has been replaced by [{}] and any
    other [data] is passed as it is: each returns the very value the request
    returns, and throws what it throws.  The facade adds two things: the
    default for [data], and, once the request has returned, a call of
    [closeServer()], not awaited, before it returns the result. *)
Theorem render_delegates (w : Renderer) (template : string) (data : JsVal)
    (inputs : list Input) :
  (run_call w (CRender template data) inputs
   = facade (render_args "renderFile" template (data_or_empty data))
       (run_call w
          (CRequest (render_args "renderFile" template (data_or_empty data)))
          inputs)
   ∧ outcome (run_call w (CRender template data) inputs)
     = outcome (run_call w
                  (CRequest
                     (render_args "renderFile" template (data_or_empty data)))
                  inputs))
  ∧ (run_call w (CRenderString template data) inputs
     = facade (render_args "renderString" template (data_or_empty data))
         (run_call w
            (CRequest
               (render_args "renderString" template (data_or_empty data)))
            inputs)
     ∧ outcome (run_call w (CRenderString template data) inputs)
       = outcome (run_call w
                    (CRequest
                       (render_args "renderString" template
                          (data_or_empty data)))
                    inputs))
  ∧ (data = VUndefined → data_or_empty data = VObj [])
  ∧ (data ≠ VUndefined → data_or_empty data = data).
Proof.
  assert (H : ∀ a, (let '(w1, t1, sp) := of_render a (request_call a w) in
                    let '(w2, t2, sp') := run w1 t1 inputs in
                    (w2, t2, sp ++ sp'))
                   = facade a (run_call w (CRequest a) inputs))
    by (intros a; apply run_call_facade).
  split; [| split; [| split]].
  - pose proof (H (render_args "renderFile" template (data_or_empty data)))
      as Ha.
    change (run_call w (CRender template data) inputs
            = facade (render_args "renderFile" template (data_or_empty data))
                (run_call w
                   (CRequest
                      (render_args "renderFile" template (data_or_empty data)))
                   inputs)) in Ha.
    split; [exact Ha |]. rewrite Ha. apply outcome_facade.
  - pose proof (H (render_args "renderString" template (data_or_empty data)))
      as Ha.
    change (run_call w (CRenderString template data) inputs
            = facade
                (render_args "renderString" template (data_or_empty data))
                (run_call w
                   (CRequest
                      (render_args "renderString" template
                         (data_or_empty data)))
                   inputs)) in Ha.
    split; [exact Ha |]. rewrite Ha. apply outcome_facade.
  - intros ->. reflexivity.
  - intros Hd. destruct data; try reflexivity. contradiction.
Qed.

(** C9 as stated fails where it says the facade adds no logic.  After the
    same answer from the worker, [request] leaves the worker [READY] and
    [render] has had it killed.  And [render] called without [data] sends
    [{template, data: {}}], where [request("renderFile", {template, data})]
    with that [data] sends [{template, data: undefined}]. *)
Lemma render_stops_the_worker :
  outcome (run_call (ready_renderer sample_config)
             (CRender "page.twig" (VObj [])) one_answer)
  = outcome (run_call (ready_renderer sample_config)
               (CRequest (render_args "renderFile" "page.twig" (VObj [])))
               one_answer)
  ∧ serverState
      (run_call (ready_renderer sample_config)
         (CRequest (render_args "renderFile" "page.twig" (VObj [])))
         one_answer).1.1 = READY
  ∧ serverState
      (run_call (ready_renderer sample_config)
         (CRender "page.twig" (VObj [])) one_answer).1.1 = STOPPING
  ∧ head (history
            (run_call (ready_renderer sample_config)
               (CRender "page.twig" (VObj [])) one_answer).1.1)
    = Some (EvPathExists (SharedConfig 8000))
  ∧ EvKill (Some 8000%N)
    ∈ history (run_call (ready_renderer sample_config)
                 (CRender "page.twig" (VObj [])) one_answer).1.1
  ∧ (run_call (ready_renderer sample_config)
       (CRender "page.twig" (VObj [])) one_answer).1.1
    ≠ (run_call (ready_renderer sample_config)
         (CRequest (render_args "renderFile" "page.twig" (VObj [])))
         one_answer).1.1
  ∧ head (history
            (call (ready_renderer sample_config)
               (CRender "page.twig" VUndefined)).1.1)
    = Some (EvFetch (Some (Loopback 8000)) "renderFile"
              (VObj [("template", VStr "page.twig"); ("data", VObj [])]))
  ∧ head (history
            (call (ready_renderer sample_config)
               (CRequest (render_args "renderFile" "page.twig" VUndefined))).1.1)
    = Some (EvFetch (Some (Loopback 8000)) "renderFile"
              (VObj [("template", VStr "page.twig"); ("data", VUndefined)])).
Proof.
  split; [vm_compute; reflexivity |]. split; [vm_compute; reflexivity |].
  split; [vm_compute; reflexivity |]. split; [vm_compute; reflexivity |].
  split; [| split; [| split; vm_compute; reflexivity]].
  - apply list_elem_of_In. vm_compute. right. left. reflexivity.
  - intros H. apply (f_equal serverState) in H. vm_compute in H.
    discriminate.
Qed.

(** ** [closeServer]: the idle shutdown *)




(** ** The constructor *)

Section ConstructorFacts.

Variable php_available : bool.
Variable validateSchemaAndAssignDefaults : Config → option Config.
Variable formatSchemaErrors : Config → string.
Variable existsSync : string → bool.
Variable cwd : string.
Variable path_resolve : string → string → string.
Variable path_relative : string → string → string.
Variable path_isAbsolute : string → bool.
Variable getAllFolders : string → string → list string.
Variable testing : bool.

(** With [useDefaults], the validator assigns a default to a property that
    is missing and leaves a property that is there as it is. *)
Hypothesis defaults_keep_verbose : ∀ c c',
  validateSchemaAndAssignDefaults c = Some c' →
  verbose c ≠ VUndefined →
  verbose c' = verbose c.

Lemma processPaths_verbose c c' :
  processPaths existsSync cwd path_resolve path_relative getAllFolders c
  = inr c' →
  verbose c' = verbose c.
Proof.
  unfold processPaths.
  destruct (checkPaths _ _ _ _ _ _ _); [discriminate |].
  destruct (src_namespaces c).
  - destruct (checkNamespaces _ _ _ _ _ _); [discriminate |].
    intros H. injection H as <-. reflexivity.
  - intros H. injection H as <-. reflexivity.
Qed.

(** C10.  Whatever configuration is passed to the constructor, when it
    builds a renderer the [verbose] of the stored configuration is [true]:
    the constructor writes [true] over the caller's value before validating.
    The plugin passes [false] when its own [verbose] option is [false] or
    missing, and that value is lost. *)
Theorem constructor_verbose (userConfig : Config) (r : Renderer) :
  constructor php_available validateSchemaAndAssignDefaults formatSchemaErrors
    existsSync cwd path_resolve path_relative path_isAbsolute getAllFolders
    testing userConfig = Built r →
  verbose (config r) = VBool true
  ∧ (∀ root o,
       userConfig = plugin_config path_resolve path_relative root o →
       opt_verbose o = VBool false ∨ opt_verbose o = VUndefined →
       verbose userConfig = VBool false).
Proof.
  intros H. split.
  - unfold constructor in H. destruct php_available; [| discriminate].
    unfold validateConfig in H. cbn [config new_renderer] in H.
    destruct (validateSchemaAndAssignDefaults
                (set_verbose (VBool true) userConfig)) as [c1 |] eqn:Ev;
      [| destruct testing; discriminate].
    apply defaults_keep_verbose in Ev; [| discriminate].
    cbn [verbose set_verbose] in Ev.
    destruct (match relativeFrom c1 with
              | Some "" | None => None
              | Some p => Some p
              end) as [p |].
    + destruct (existsSync p); [| discriminate].
      destruct (processPaths _ _ _ _ _ _) as [msg | c4] eqn:Ep;
        [discriminate |].
      injection H as <-. apply processPaths_verbose in Ep.
      cbn [config new_renderer]. rewrite Ep. exact Ev.
    + destruct (processPaths _ _ _ _ _ _) as [msg | c4] eqn:Ep;
        [discriminate |].
      injection H as <-. apply processPaths_verbose in Ep.
      cbn [config new_renderer]. rewrite Ep. exact Ev.
  - intros root o -> [Hv | Hv]; cbn [verbose plugin_config]; rewrite Hv;
      reflexivity.
Qed.

End ConstructorFacts.

Lemma constructor_verbose_witness :
  verbose (plugin_config sample_resolve sample_relative "/project"
             sample_options) = VBool false
  ∧ ∃ r, sample_constructor
           (plugin_config sample_resolve sample_relative "/project"
              sample_options) = Built r
         ∧ verbose (config r) = VBool true.
Proof.
  split; [reflexivity |].
  eexists. split; [vm_compute; reflexivity |].
  refine (proj1 (constructor_verbose true Some (λ _, "") (λ _, true)
                   "/project" sample_resolve sample_relative
                   sample_isAbsolute (λ _ _, []) false _
                   (plugin_config sample_resolve sample_relative "/project"
                      sample_options) _ _)).
  - intros c c' Hc _. injection Hc as <-. reflexivity.
  - vm_compute. reflexivity.
Defined.

(** * Further properties *)

(** ** Segments, one at a time *)

Ltac fields :=
  cbn [portsUsed serverState inProgressRequests totalRequests
         completedRequests config phpServerPort phpServerUrl sharedConfigPath
         phpServer orphans timers history set_serverState set_counters
         set_sharedConfigPath set_children set_timers add_port set_port
         set_history log spawn getOpenPort_call schedule_recheck] in *.

Lemma state_eqb_ne s s' : s ≠ s' → state_eqb s s' = false.
Proof. destruct s, s'; simpl; congruence. Qed.

Lemma gate_open_spec w :
  gate_open w →
  match maxConcurrency (config w) with
  | Some m => inProgressRequests w >? m
  | None => false
  end = false.
Proof.
  unfold gate_open. destruct (maxConcurrency (config w)); [| reflexivity].
  intros H. rewrite Z.gtb_ltb. apply Z.ltb_ge. exact H.
Qed.

Lemma run_step w t i rest w1 t1 :
  resume w t i = Some (w1, t1, []) →
  run w t (i :: rest) = run w1 t1 rest.
Proof.
  intros H. cbn [run]. rewrite H.
  destruct (run w1 t1 rest) as [[w2 t2] sp]. reflexivity.
Qed.

Lemma init_call_fresh w :
  serverState w = STOPPED ∨ serverState w = READY →
  init_call w
  = (getOpenPort_call (set_serverState STARTING w), InitPending IGetPort).
Proof. unfold init_call. intros [-> | ->]; reflexivity. Qed.


Lemma request_call_waits a w :
  serverState w ≠ STOPPED → serverState w ≠ READY →
  request_call a w
  = (log (EvSleep 250)
       (set_counters (inProgressRequests w) (totalRequests w + 1)
          (completedRequests w) w),
     ReqPending RWaitReady).
Proof.
  intros H1 H2. unfold request_call, gate_ready. fields.
  rewrite !state_eqb_ne by assumption. reflexivity.
Qed.

Lemma init_port_fresh w p :
  (p ∉ portsUsed w) →
  init_resume w IGetPort (InPort p)
  = Some (log (EvWriteFile (SharedConfig p))
            (set_port p (log (EvPortReturned p) (add_port p w))),
          InitPending IWriteFile).
Proof.
  intros Hp. unfold init_resume, getOpenPort_resume.
  destruct (decide (p ∈ portsUsed w)); [contradiction | reflexivity].
Qed.

Lemma init_file_written w :
  serverState w = STARTING →
  init_resume w IWriteFile InOk
  = Some (log (EvProbe (phpServerUrl w)) (spawn w), InitPending IProbe).
Proof.
  intros Hs. unfold init_resume, checkServerWhileStarting. fields.
  rewrite Hs. reflexivity.
Qed.

Lemma init_probe_ok w r :
  res_ok r = true →
  init_resume w IProbe (InResponse r)
  = Some (log (EvSleep 100) (set_serverState READY w), InitPending ISleep).
Proof.
  intros Hr. unfold init_resume, checkIfServerIsReady_resume.
  rewrite Hr. reflexivity.
Qed.

Lemma init_slept_ready w :
  serverState w = READY →
  init_resume w ISleep InOk = Some (w, InitReturn READY).
Proof.
  intros Hs. unfold init_resume, checkServerWhileStarting.
  rewrite Hs. reflexivity.
Qed.

Lemma gate_ready_admits a w :
  serverState w = READY →
  gate_open w →
  gate_ready a w
  = (log (EvFetch (phpServerUrl w) (req_type a) (req_body a))
       (set_counters (inProgressRequests w + 1) (totalRequests w)
          (completedRequests w) w),
     ReqPending (RFetch 0)).
Proof.
  intros Hs Hg. unfold gate_ready, gate_concurrency.
  rewrite Hs, (gate_open_spec w Hg). reflexivity.
Qed.

Lemma attempt_plain a w n r html :
  res_contentType r ≠ Some "application/json" →
  run w (TRequest a (RFetch n)) [InResponse r; InText html]
  = (set_counters (inProgressRequests w - 1) (totalRequests w)
       (completedRequests w + 1) w,
     TDone (Returned (plain_result r html)), []).
Proof.
  intros Hct. simpl.
  destruct (decide (res_contentType r = Some "application/json"));
    [contradiction |].
  unfold plain_result. destruct (res_ok r), (res_warning r); reflexivity.
Qed.

Lemma wait_ready_loop a n : ∀ w,
  serverState w ≠ READY →
  run w (TRequest a RWaitReady) (replicate n InOk)
  = (sleeps n w, TRequest a RWaitReady, []).
Proof.
  induction n as [| n IH]; intros w Hs.
  - destruct w; reflexivity.
  - cbn [replicate]. erewrite run_step; cycle 1.
    { cbn [resume request_resume]. unfold gate_ready.
      rewrite state_eqb_ne by exact Hs. reflexivity. }
    rewrite IH by exact Hs.
    unfold sleeps. destruct w; simpl. rewrite replicate_shift. reflexivity.
Qed.


(** ** [stop] *)

(** X1.  A second [stop()] does nothing: after any call of [stop()] the
    state is [STOPPED] or [STOPPING], and calling [stop()] again, even while
    the first is still cleaning up, returns at once and leaves every field
    as it is: no second kill, no second deletion. *)
Theorem stop_twice (w : Renderer) :
  (serverState (stop_call w).1 = STOPPED
   ∨ serverState (stop_call w).1 = STOPPING)
  ∧ stop_call (stop_call w).1 = ((stop_call w).1, None)
  ∧ call (stop_call w).1 CStop
    = ((stop_call w).1, TDone (Returned VUndefined), []).
Proof.
  destruct w as [pu st ip tot comp cfg port url path srv orph tm hist].
  unfold call, stop_call, kill_server, cleanupConfigFile_call.
  destruct st, srv, path; simpl; auto.
Qed.

(** X2.  [stop()] on a [READY] or [STARTING] renderer always completes:
    whether the config file exists or not, and whether [fs.pathExists] or
    [fs.unlink] reject, it returns without throwing, the state is [STOPPED],
    the config path is cleared, the current child has been sent the kill
    signal and has lost its listeners. *)
Theorem stop_completes (w : Renderer) (answers : list Input) :
  serverState w = READY ∨ serverState w = STARTING →
  cleanup_answers answers →
  ∃ w', run_call w CStop answers = (w', TDone (Returned VUndefined), [])
        ∧ serverState w' = STOPPED
        ∧ sharedConfigPath w' = None
        ∧ orphans w' = orphans w
        ∧ portsUsed w' = portsUsed w
        ∧ match phpServer w with
          | Some c =>
              phpServer w'
              = Some {| child_port := child_port c; child_listeners := false |}
              ∧ EvKill (child_port c) ∈ history w'
          | None => phpServer w' = None
          end.
Proof.
  intros Hs Ha.
  destruct w as [pu st ip tot comp cfg port url path srv orph tm hist].
  cbn [serverState] in Hs.
  unfold run_call, call, stop_call, kill_server, cleanupConfigFile_call.
  destruct Hs as [-> | ->]; destruct srv, path, Ha; simpl;
    eexists; (split; [reflexivity |]); simpl; repeat split;
    repeat first [apply list_elem_of_here | apply list_elem_of_further].
Qed.

Lemma stop_completes_witness :
  serverState (ready_renderer sample_config) = READY
  ∧ cleanup_answers [InBool true; InThrow "EACCES"]
  ∧ ∃ w', run_call (ready_renderer sample_config) CStop
            [InBool true; InThrow "EACCES"]
          = (w', TDone (Returned VUndefined), [])
          ∧ serverState w' = STOPPED
          ∧ sharedConfigPath w' = None.
Proof.
  split; [reflexivity |]. split; [constructor |].
  destruct (stop_completes (ready_renderer sample_config)
              [InBool true; InThrow "EACCES"] (or_introl eq_refl)
              (unlink_threw "EACCES"))
    as (w' & Hr & Hs & Hp & _).
  exists w'. repeat split; assumption.
Defined.

(** ** [request]: when it throws, when it waits *)

(** X3.  [request] throws in three cases only: [init] threw ([getPort] or
    [fs.writeFile] rejected); the worker's JSON body parsed to [null], so
    that reading [results.ok] failed; or the JSON body has [ok: false] and a
    [message] that has no string, so that converting it for the console
    failed.  In the last two cases the request has already been counted in
    [completedRequests].  Such bodies always make it throw. *)
Theorem request_throws_only (w : Renderer) (a : ReqArgs) :
  (∀ w' msg, request_call a w ≠ (w', ReqThrow msg))
  ∧ (∀ pc i w' msg,
       request_resume a w pc i = Some (w', ReqThrow msg) →
       (∃ ipc, pc = RInit ipc ∧ (ipc = IGetPort ∨ ipc = IWriteFile)
               ∧ i = InThrow msg ∧ w' = w)
       ∨ (∃ n v, pc = RJson n ∧ i = InJson v
                 ∧ (v = VNull ∨ v = VUndefined
                    ∨ ∃ m, get_prop v "ok" = Some (VBool false)
                           ∧ get_prop v "message" = Some m
                           ∧ to_string_throws m = true)
                 ∧ completedRequests w' = completedRequests w + 1
                 ∧ inProgressRequests w' = inProgressRequests w - 1))
  ∧ (∀ n, ∃ msg,
       request_resume a w (RJson n) (InJson VNull)
       = Some (set_counters (inProgressRequests w - 1) (totalRequests w)
                 (completedRequests w + 1) w, ReqThrow msg))
  ∧ (∀ n v m,
       get_prop v "ok" = Some (VBool false) →
       get_prop v "message" = Some m →
       to_string_throws m = true →
       ∃ msg,
         request_resume a w (RJson n) (InJson v)
         = Some (set_counters (inProgressRequests w - 1) (totalRequests w)
                   (completedRequests w + 1) w, ReqThrow msg)).
Proof.
  split; [| split; [| split]].
  - intros w' msg H. unfold_model. split_cases.
  - intros pc i w' msg H.
    destruct pc as [ipc | | | n | n | n ok warning].
    + left. unfold_model. destruct ipc; split_cases;
        eexists; repeat split; eauto.
    + unfold_model. split_cases.
    + unfold_model. split_cases.
    + unfold_model. split_cases.
    + cbn [request_resume] in H.
      destruct i as [| | | | v | | msg0]; try discriminate H;
        [| exfalso; unfold_model; split_cases].
      right. unfold attempt_ok, request_end in H.
      destruct (get_prop v "ok") as [okv |] eqn:Eok.
      * destruct (is_false okv
                  && to_string_throws
                       (default VUndefined (get_prop v "message"))) eqn:E;
          [| discriminate H].
        injection H as <- _. apply andb_true_iff in E as [Ef Et].
        exists n, v. split; [reflexivity |]. split; [reflexivity |].
        split; [| split; reflexivity].
        right. right.
        destruct okv as [| | [] | | | |]; try discriminate Ef.
        destruct (get_prop v "message") as [m |] eqn:Em.
        -- exists m. auto.
        -- destruct v; discriminate.
      * injection H as <- _. exists n, v.
        split; [reflexivity |]. split; [reflexivity |].
        split; [| split; reflexivity].
        destruct v; try discriminate Eok; auto.
    + unfold_model. destruct warning; split_cases.
  - intros n. eexists. reflexivity.
  - intros n v m Hok Hm Ht. eexists. cbn [request_resume].
    unfold attempt_ok, request_end. rewrite Hok, Hm. simpl.
    rewrite Ht. reflexivity.
Qed.

Lemma request_throws_only_witness :
  ∃ w' msg,
    request_resume meta_args (ready_renderer sample_config) (RJson 0)
      (InJson (VObj [("ok", VBool false);
                     ("message", VObj [("toString", VNum 1)])]))
    = Some (w', ReqThrow msg)
    ∧ completedRequests w'
      = completedRequests (ready_renderer sample_config) + 1.
Proof.
  destruct (request_throws_only (ready_renderer sample_config) meta_args)
    as (_ & Honly & _ & Hmsg).
  destruct (Hmsg 0%nat
              (VObj [("ok", VBool false);
                     ("message", VObj [("toString", VNum 1)])])
              (VObj [("toString", VNum 1)]) eq_refl eq_refl eq_refl)
    as [msg Hr].
  destruct (Honly _ _ _ _ Hr) as [(ipc & Hpc & _) | (n & v & _ & _ & _ & Hc & _)];
    [discriminate |].
  eexists _, msg. split; [exact Hr | exact Hc].
Defined.

(** X4.  A request that finds the state neither [STOPPED] nor [READY]
    waits, and a waiting request never starts the worker itself: as long as
    the state is not [READY], also when it has become [STOPPED] meanwhile,
    every wake-up goes back to sleep and nothing changes but the sleeps
    recorded. *)
Theorem waiting_request_never_starts (w : Renderer) (a : ReqArgs) (n : nat) :
  serverState w ≠ READY →
  run w (TRequest a RWaitReady) (replicate n InOk)
  = (sleeps n w, TRequest a RWaitReady, [])
  ∧ serverState (sleeps n w) = serverState w
  ∧ phpServer (sleeps n w) = phpServer w
  ∧ portsUsed (sleeps n w) = portsUsed w
  ∧ history (sleeps n w) = replicate n (EvSleep 250) ++ history w
  ∧ (serverState w ≠ STOPPED →
     call w (CRequest a)
     = (log (EvSleep 250)
          (set_counters (inProgressRequests w) (totalRequests w + 1)
             (completedRequests w) w),
        TRequest a RWaitReady, [])).
Proof.
  intros Hs. split; [apply wait_ready_loop, Hs |].
  repeat split. intros Hs'. unfold call.
  rewrite request_call_waits by assumption. reflexivity.
Qed.

Lemma waiting_request_never_starts_witness :
  serverState stopping_renderer ≠ READY
  ∧ run (on_exit stopping_renderer).1 (TRequest meta_args RWaitReady)
      (replicate 3 InOk)
    = (sleeps 3 (on_exit stopping_renderer).1,
       TRequest meta_args RWaitReady, [])
  ∧ serverState (on_exit stopping_renderer).1 = STOPPED.
Proof.
  split; [discriminate |].
  split; [| reflexivity].
  apply (waiting_request_never_starts (on_exit stopping_renderer).1
           meta_args 3).
  discriminate.
Defined.



(** ** From a stopped renderer to a result *)





(** ** Two callers at once *)



(** ** A request that was never completed *)

Lemma deficit_step s s' : sys_step s s' → deficit s ≤ deficit s'.
Proof.
  unfold deficit.
  intros [s0 c w t sp Hc | s0 n t i w t' sp Hn Hr | s0 Hl
         | s0 w c Hl He | s0 n w c Ht Hf]; simpl.
  - apply call_counts in Hc as (Ht & Hc & Hp & Hsp).
    change (t :: sp) with ([t] ++ sp). rewrite !total_of_app. simpl.
    destruct (is_request c); lia.
  - apply resume_counts in Hr as (Ht & Hc & Hp & Hsp).
    rewrite total_of_app, (total_of_insert _ _ _ _ _ Hn). lia.
  - lia.
  - pose proof (events_counts (world s0)) as (_ & [Ht Hc] & _).
    rewrite He in Ht, Hc. simpl in Ht, Hc.
    rewrite total_of_app, total_of_spawned by reflexivity. lia.
  - pose proof (events_counts (set_timers n (world s0))) as (_ & _ & [Ht' Hc]).
    rewrite Hf in Ht', Hc. simpl in Ht', Hc.
    rewrite total_of_app, total_of_spawned by reflexivity. lia.
Qed.

Lemma deficit_steps s s' : rtc sys_step s s' → deficit s ≤ deficit s'.
Proof.
  induction 1 as [| x y z Hstep _ IH]; [lia |].
  apply deficit_step in Hstep. lia.
Qed.

(** X9.  A request that ends without being counted in
    [completedRequests], because its three attempts failed or because it
    threw, leaves [completedRequests] below [totalRequests] for the rest of
    the renderer's life.  From then on the renderer is never idle again:
    with [keepAlive: false] every [closeServer] only sets its timer, and no
    timer ever stops the worker. *)
Theorem abandoned_request_blocks_idle (s s' : Sys) :
  (∀ n t i w' o sp,
     threads s !! n = Some t →
     pending t = 1 →
     resume (world s) t i = Some (w', TDone o, sp) →
     completedRequests w' = completedRequests (world s) →
     deficit {| world := w'; threads := <[n:=TDone o]> (threads s) ++ sp |}
     = deficit s + 1)
  ∧ (rtc sys_step s s' →
     0 < deficit s →
     completedRequests (world s') < totalRequests (world s')
     ∧ idle (world s') = false
     ∧ on_timer (world s') = (world s', None)
     ∧ (is_false (keepAlive (config (world s'))) = true →
        closeServer (world s') = (schedule_recheck (world s'), None))).
Proof.
  split.
  - intros n t i w' o sp Hn Hp Hr Hc. unfold deficit. simpl.
    apply resume_counts in Hr as (Ht & _ & _ & Hsp).
    rewrite total_of_app, (total_of_insert _ _ _ _ _ Hn), Hsp. simpl. lia.
  - intros Hsteps Hd. apply deficit_steps in Hsteps.
    pose proof (total_of_pending_nonneg (threads s')) as Hp.
    unfold deficit in *.
    assert (Hlt : completedRequests (world s') < totalRequests (world s'))
      by lia.
    assert (Hidle : idle (world s') = false).
    { unfold idle. apply andb_false_iff. left. apply Z.eqb_neq. lia. }
    split; [exact Hlt |]. split; [exact Hidle |]. split.
    + unfold on_timer. rewrite Hidle. reflexivity.
    + intros Hk. unfold closeServer. rewrite Hk, Hidle. reflexivity.
Qed.

Lemma abandoned_request_blocks_idle_witness :
  reachable sample_config abandoned
  ∧ rtc sys_step abandoned abandoned_later
  ∧ deficit abandoned = 1
  ∧ total_of pending (threads abandoned_later) = 0
  ∧ serverState (world abandoned_later) = READY
  ∧ idle (world abandoned_later) = false.
Proof.
  assert (Hsteps : rtc sys_step abandoned abandoned_later)
    by (apply (play_steps later_schedule); vm_compute; reflexivity).
  split; [apply (play_steps abandoned_schedule); vm_compute; reflexivity |].
  split; [exact Hsteps |]. split; [vm_compute; reflexivity |].
  split; [vm_compute; reflexivity |]. split; [vm_compute; reflexivity |].
  destruct (abandoned_request_blocks_idle abandoned abandoned_later)
    as [_ H].
  destruct (H Hsteps) as (_ & Hidle & _); [vm_compute; reflexivity |].
  exact Hidle.
Defined.

(** ** The concurrency ceiling *)

Ltac same_ceiling :=
  repeat match goal with
         | H1 : ?x = Some ?a, H2 : ?x = Some ?b |- _ =>
             assert (a = b) by congruence; subst; clear H2
         | H1 : ?x = None, H2 : ?x = Some _ |- _ => congruence
         end.

Ltac gtb_facts :=
  repeat match goal with
         | H : (_ >? _) = false |- _ => rewrite Z.gtb_ltb, Z.ltb_ge in H
         | H : (_ >? _) = true |- _ => rewrite Z.gtb_ltb, Z.ltb_lt in H
         end.

Lemma call_ceiling m w c : ceiling_kept m w (call w c).1.1.
Proof.
  unfold ceiling_kept. destruct c; unfold_model; split_cases;
    (split; [reflexivity |]); intros Hm; simplify_eq; same_ceiling;
    gtb_facts; lia.
Qed.

Lemma resume_ceiling m w t i w' t' sp :
  resume w t i = Some (w', t', sp) → ceiling_kept m w w'.
Proof.
  intros H. unfold ceiling_kept. unfold_model. split_cases;
    (split; [reflexivity |]); intros Hm; simplify_eq; same_ceiling;
    gtb_facts; lia.
Qed.

Lemma events_ceiling m w :
  ceiling_kept m w (on_close w)
  ∧ ceiling_kept m w (on_exit w).1
  ∧ (∀ n, ceiling_kept m w (on_timer (set_timers n w)).1).
Proof.
  unfold ceiling_kept. repeat split; intros; unfold_model; split_cases;
    simpl; first [reflexivity | lia].
Qed.

Lemma sys_step_ceiling m s s' :
  sys_step s s' → ceiling_kept m (world s) (world s').
Proof.
  intros [s0 c w t sp Hc | s0 n t i w t' sp Hn Hr | s0 Hl
         | s0 w c Hl He | s0 n w c Ht Hf]; simpl.
  - pose proof (call_ceiling m (world s0) c) as H. rewrite Hc in H. exact H.
  - eapply resume_ceiling, Hr.
  - apply events_ceiling.
  - pose proof (events_ceiling m (world s0)) as (_ & H & _).
    rewrite He in H. exact H.
  - pose proof (events_ceiling m (world s0)) as (_ & _ & H).
    specialize (H n). rewrite Hf in H. exact H.
Qed.

(** X10.  With [maxConcurrency] set to [m], in every state a renderer can
    be observed in the configuration is the one it was built with and
    [inProgressRequests] is between 0 and [m + 1] (0 when [m] is
    negative): a request is admitted while [inProgressRequests] is at most
    [m], so one more than the ceiling can be in flight, and never two
    more. *)
Theorem in_progress_ceiling (c : Config) (m : Z) (s : Sys) :
  reachable c s →
  maxConcurrency c = Some m →
  config (world s) = c
  ∧ 0 ≤ inProgressRequests (world s) ≤ Z.max 0 (m + 1).
Proof.
  intros Hr Hm.
  assert (H0 : 0 ≤ inProgressRequests (world s)).
  { apply counters_inv_reachable in Hr as (_ & _ & ->).
    apply total_of_in_attempt_bounds. }
  cut (config (world s) = c
       ∧ inProgressRequests (world s) ≤ Z.max 0 (m + 1)); [tauto |].
  clear H0. revert s Hr. apply rtc_ind_r.
  - simpl. split; [reflexivity | lia].
  - intros y z _ Hstep [Hc Hle].
    apply (sys_step_ceiling m) in Hstep as [Hc' Hle'].
    split; [congruence |]. rewrite Hc in Hle'. specialize (Hle' Hm). lia.
Qed.

(** With a ceiling of one, two of three renders are in flight and the
    third waits. *)
Lemma in_progress_ceiling_witness :
  reachable narrow_config three_renders
  ∧ maxConcurrency narrow_config = Some 1
  ∧ inProgressRequests (world three_renders) = 2
  ∧ threads three_renders !! 3%nat
    = Some (TRender (render_args "renderFile" "c.twig" (VObj []))
              RWaitConcurrency)
  ∧ 0 ≤ inProgressRequests (world three_renders) ≤ Z.max 0 (1 + 1).
Proof.
  assert (Hr : reachable narrow_config three_renders)
    by (apply (play_steps three_renders_schedule); vm_compute; reflexivity).
  split; [exact Hr |]. split; [reflexivity |].
  split; [vm_compute; reflexivity |]. split; [vm_compute; reflexivity |].
  apply (in_progress_ceiling narrow_config 1 three_renders Hr eq_refl).
Defined.

(** ** Port, url and config path *)











(** ** The constructor: what it checks *)

Section ConstructorChecks.

Variable php_available : bool.
Variable validateSchemaAndAssignDefaults : Config → option Config.
Variable formatSchemaErrors : Config → string.
Variable existsSync : string → bool.
Variable cwd : string.
Variable path_resolve : string → string → string.
Variable path_relative : string → string → string.
Variable path_isAbsolute : string → bool.
Variable getAllFolders : string → string → list string.
Variable testing : bool.

Lemma checkPaths_inr paths : ∀ relFrom recursive l,
  checkPaths existsSync path_resolve path_relative getAllFolders
    paths relFrom recursive = inr l →
  Forall (λ p, existsSync (path_resolve relFrom p) = true) paths
  ∧ (recursive = false →
     l = map (λ p, path_relative relFrom (path_resolve relFrom p)) paths).
Proof.
  induction paths as [| p rest IH]; intros relFrom recursive l; simpl.
  - intros [= <-]. split; [constructor | reflexivity].
  - destruct (existsSync (path_resolve relFrom p)) eqn:E; [| discriminate].
    destruct (checkPaths existsSync path_resolve path_relative getAllFolders
                rest relFrom recursive) as [msg | l'] eqn:Er;
      [discriminate |].
    intros [= <-]. apply IH in Er as [Hall Hl]. split.
    + constructor; assumption.
    + intros ->. rewrite (Hl eq_refl). reflexivity.
Qed.

Lemma checkPaths_inl good : ∀ bad rest relFrom recursive,
  Forall (λ p, existsSync (path_resolve relFrom p) = true) good →
  existsSync (path_resolve relFrom bad) = false →
  checkPaths existsSync path_resolve path_relative getAllFolders
    (good ++ bad :: rest) relFrom recursive
  = inl ("This file path does not exist, but was used in config: " +:+ bad).
Proof.
  induction good as [| p good IH]; intros bad rest relFrom recursive Hg Hb;
    simpl.
  - rewrite Hb. reflexivity.
  - inversion Hg as [| ? ? Hp Hg']; subst. rewrite Hp.
    rewrite (IH bad rest relFrom recursive Hg' Hb). reflexivity.
Qed.

Lemma checkNamespaces_inr nss : ∀ relFrom l,
  checkNamespaces existsSync path_resolve path_relative getAllFolders
    nss relFrom = inr l →
  Forall (λ ns, Forall (λ p, existsSync (path_resolve relFrom p) = true)
                  (ns_paths ns)) nss
  ∧ map ns_id l = map ns_id nss.
Proof.
  induction nss as [| ns rest IH]; intros relFrom l; simpl.
  - intros [= <-]. split; [constructor | reflexivity].
  - destruct (checkPaths existsSync path_resolve path_relative getAllFolders
                (ns_paths ns) relFrom (ns_recursive ns))
      as [msg | ps] eqn:Ep; [discriminate |].
    destruct (checkNamespaces existsSync path_resolve path_relative
                getAllFolders rest relFrom) as [msg | l'] eqn:Er;
      [discriminate |].
    intros [= <-]. apply IH in Er as [Hall Hids].
    apply checkPaths_inr in Ep as [Hp _]. split.
    + constructor; assumption.
    + simpl. rewrite Hids. reflexivity.
Qed.

Lemma validateConfig_base w c1 :
  validateSchemaAndAssignDefaults (config w) = Some c1 →
  validateConfig validateSchemaAndAssignDefaults formatSchemaErrors existsSync
    cwd path_resolve path_relative path_isAbsolute getAllFolders testing w
  = match base_dir existsSync cwd path_resolve c1 with
    | Some b =>
        match processPaths existsSync cwd path_resolve path_relative
                getAllFolders
                (set_alterTwigEnv
                   (map (resolve_alter path_resolve path_isAbsolute b)
                      <$> alterTwigEnv c1)
                   (set_relativeFrom b c1)) with
        | inl msg => Thrown msg
        | inr c4 => Built (new_renderer c4)
        end
    | None =>
        Thrown ("Uh oh, that file path does not exist: "
                +:+ default "" (relativeFrom c1))
    end.
Proof.
  intros Hv. unfold validateConfig, base_dir. rewrite Hv.
  destruct (relativeFrom c1) as [[| a s] |]; simpl; try reflexivity.
  destruct (existsSync (String a s)); reflexivity.
Qed.

(** X12.  When the constructor builds a renderer, PHP was found, the
    configuration passed the schema, and every directory used exists: the
    base directory given in [relativeFrom], every root and every namespace
    path resolved from it.  The stored configuration has [relativeFrom] set
    to the resolved base directory and each root rewritten relative to it;
    namespaces keep their ids and order; [keepAlive] and [maxConcurrency]
    are as validated; and the renderer starts [STOPPED] with empty registry
    and all counters zero. *)
Theorem constructor_checks_paths (userConfig : Config) (r : Renderer) :
  constructor php_available validateSchemaAndAssignDefaults formatSchemaErrors
    existsSync cwd path_resolve path_relative path_isAbsolute getAllFolders
    testing userConfig = Built r →
  ∃ c1 b,
    php_available = true
    ∧ validateSchemaAndAssignDefaults (set_verbose (VBool true) userConfig)
      = Some c1
    ∧ base_dir existsSync cwd path_resolve c1 = Some b
    ∧ relativeFrom (config r) = Some b
    ∧ Forall (λ p, existsSync (path_resolve b p) = true) (src_roots c1)
    ∧ src_roots (config r)
      = map (λ p, path_relative b (path_resolve b p)) (src_roots c1)
    ∧ match src_namespaces c1 with
      | Some nss =>
          Forall (λ ns, Forall (λ p, existsSync (path_resolve b p) = true)
                          (ns_paths ns)) nss
          ∧ ∃ nss', src_namespaces (config r) = Some nss'
                    ∧ map ns_id nss' = map ns_id nss
      | None => src_namespaces (config r) = None
      end
    ∧ keepAlive (config r) = keepAlive c1
    ∧ maxConcurrency (config r) = maxConcurrency c1
    ∧ r = new_renderer (config r).
Proof.
  unfold constructor. destruct php_available; [| discriminate].
  destruct (validateSchemaAndAssignDefaults
              (set_verbose (VBool true) userConfig)) as [c1 |] eqn:Hv.
  2:{ unfold validateConfig. cbn [config new_renderer]. rewrite Hv.
      destruct testing; discriminate. }
  rewrite (validateConfig_base _ c1) by exact Hv.
  destruct (base_dir existsSync cwd path_resolve c1) as [b |] eqn:Hb;
    [| discriminate].
  unfold processPaths. simpl.
  destruct (checkPaths existsSync path_resolve path_relative getAllFolders
              (src_roots c1) b false) as [msg | roots] eqn:Er;
    [discriminate |].
  apply checkPaths_inr in Er as [Hroots Hmap]. specialize (Hmap eq_refl).
  destruct (src_namespaces c1) as [nss |] eqn:Hns.
  - destruct (checkNamespaces existsSync path_resolve path_relative
                getAllFolders nss b) as [msg | nss'] eqn:En;
      [discriminate |].
    apply checkNamespaces_inr in En as [Hall Hids].
    intros [= Hr]. subst r. exists c1, b. rewrite Hns. simpl.
    repeat split; auto. exists nss'. split; [reflexivity | exact Hids].
  - intros [= Hr]. subst r. exists c1, b. rewrite Hns. simpl.
    repeat split; auto.
Qed.

(** X13.  How the constructor fails.  Without PHP the process exits with
    code 1.  A configuration the schema rejects makes the process exit with
    code 1, or, under [NODE_ENV=testing], throws the schema errors.  A
    [relativeFrom] that does not exist throws naming it.  Otherwise the
    first root that does not exist throws naming that root as the caller
    wrote it. *)
Theorem constructor_failures (userConfig : Config) :
  (php_available = false →
   constructor php_available validateSchemaAndAssignDefaults
     formatSchemaErrors existsSync cwd path_resolve path_relative
     path_isAbsolute getAllFolders testing userConfig = Exited 1)
  ∧ (php_available = true →
     validateSchemaAndAssignDefaults (set_verbose (VBool true) userConfig)
     = None →
     constructor php_available validateSchemaAndAssignDefaults
       formatSchemaErrors existsSync cwd path_resolve path_relative
       path_isAbsolute getAllFolders testing userConfig
     = if testing
       then Thrown ("Error: Please check config passed into TwigRenderer."
                    +:+ String (Ascii.ascii_of_nat 10) ""
                    +:+ formatSchemaErrors
                          (set_verbose (VBool true) userConfig))
       else Exited 1)
  ∧ (∀ c1 p,
       php_available = true →
       validateSchemaAndAssignDefaults (set_verbose (VBool true) userConfig)
       = Some c1 →
       relativeFrom c1 = Some p → p ≠ "" → existsSync p = false →
       constructor php_available validateSchemaAndAssignDefaults
         formatSchemaErrors existsSync cwd path_resolve path_relative
         path_isAbsolute getAllFolders testing userConfig
       = Thrown ("Uh oh, that file path does not exist: " +:+ p))
  ∧ (∀ c1 b good bad rest,
       php_available = true →
       validateSchemaAndAssignDefaults (set_verbose (VBool true) userConfig)
       = Some c1 →
       base_dir existsSync cwd path_resolve c1 = Some b →
       src_roots c1 = good ++ bad :: rest →
       Forall (λ p, existsSync (path_resolve b p) = true) good →
       existsSync (path_resolve b bad) = false →
       constructor php_available validateSchemaAndAssignDefaults
         formatSchemaErrors existsSync cwd path_resolve path_relative
         path_isAbsolute getAllFolders testing userConfig
       = Thrown ("This file path does not exist, but was used in config: "
                 +:+ bad)).
Proof.
  split; [| split; [| split]].
  - intros ->. reflexivity.
  - intros -> Hv. unfold constructor, validateConfig.
    cbn [config new_renderer]. rewrite Hv. reflexivity.
  - intros c1 p -> Hv Hp Hne He. unfold constructor.
    rewrite (validateConfig_base _ c1) by exact Hv.
    unfold base_dir. rewrite Hp.
    destruct p as [| a s]; [contradiction |]. rewrite He. reflexivity.
  - intros c1 b good bad rest -> Hv Hb Hroots Hgood Hbad. unfold constructor.
    rewrite (validateConfig_base _ c1) by exact Hv. rewrite Hb.
    unfold processPaths. simpl.
    rewrite Hroots, (checkPaths_inl good bad rest b false Hgood Hbad).
    reflexivity.
Qed.

End ConstructorChecks.

Lemma constructor_checks_paths_witness :
  ∃ r, sample_constructor sample_config = Built r
       ∧ relativeFrom (config r) = Some "/project"
       ∧ src_roots (config r) = ["/project/templates"]
       ∧ serverState r = STOPPED.
Proof.
  eexists. split; [vm_compute; reflexivity |].
  destruct (constructor_checks_paths true Some (λ _, "") (λ _, true)
              "/project" sample_resolve sample_relative sample_isAbsolute
              (λ _ _, []) false sample_config _ eq_refl)
    as (c1 & b & _ & Hv & Hb & Hrel & _ & Hroots & _).
  injection Hv as <-. vm_compute in Hb. injection Hb as <-.
  split; [exact Hrel |]. split; [exact Hroots | reflexivity].
Defined.

Lemma constructor_failures_witness :
  sample_exists (sample_resolve "/project" "templates") = true
  ∧ sample_exists (sample_resolve "/project" "missing") = false
  ∧ strict_constructor missing_root_config
    = Thrown "This file path does not exist, but was used in config: missing".
Proof.
  split; [reflexivity |]. split; [reflexivity |].
  destruct (constructor_failures true Some (λ _, "") sample_exists "/project"
              sample_resolve sample_relative sample_isAbsolute (λ _ _, [])
              false missing_root_config) as (_ & _ & _ & H).
  apply (H (set_verbose (VBool true) missing_root_config) "/project"
           ["templates"] "missing" ["other"]);
    try reflexivity.
  repeat constructor.
Defined.

(** ** [convertLegacyNamespacesConfig] *)

Lemma assoc_obj_set k k' v fields :
  assoc k (obj_set k' v fields)
  = if String.eqb k k' then v else assoc k fields.
Proof.
  induction fields as [| [k0 v0] rest IH]; simpl.
  - destruct (String.eqb k k'); reflexivity.
  - destruct (String.eqb_spec k' k0) as [-> | Hne]; simpl.
    + destruct (String.eqb k k0); reflexivity.
    + rewrite IH. destruct (String.eqb_spec k k0) as [-> | Hne'].
      * destruct (String.eqb_spec k0 k'); [congruence | reflexivity].
      * reflexivity.
Qed.

Lemma assoc_absent k (fields : list (string * JsVal)) :
  k ∉ map fst fields → assoc k fields = VUndefined.
Proof.
  induction fields as [| [k0 v0] rest IH]; simpl; [reflexivity |].
  intros Hk. destruct (String.eqb_spec k k0) as [-> | Hne].
  - exfalso. apply Hk. left.
  - apply IH. intros Hin. apply Hk. right. exact Hin.
Qed.

Lemma assoc_obj_assign source : ∀ target k,
  NoDup (map fst source) →
  assoc k (obj_assign target source)
  = if bool_decide (k ∈ map fst source) then assoc k source
    else assoc k target.
Proof.
  unfold obj_assign.
  induction source as [| [k1 v1] rest IH]; intros target k Hnd; simpl.
  - reflexivity.
  - apply NoDup_cons in Hnd as [Hk1 Hnd].
    rewrite IH by exact Hnd. rewrite assoc_obj_set.
    destruct (String.eqb_spec k k1) as [-> | Hne].
    + rewrite bool_decide_eq_false_2 by exact Hk1.
      rewrite bool_decide_eq_true_2 by (left). reflexivity.
    + destruct (bool_decide (k ∈ map fst rest)) eqn:E.
      * apply bool_decide_eq_true in E.
        rewrite bool_decide_eq_true_2 by (right; exact E). reflexivity.
      * apply bool_decide_eq_false in E.
        rewrite bool_decide_eq_false_2; [reflexivity |].
        intros Hin. apply elem_of_cons in Hin as [? | ?]; contradiction.
Qed.

Lemma lookup_fields_nodup namespaces : ∀ i id value,
  NoDup (map fst namespaces) →
  namespaces !! i = Some (id, value) →
  lookup_fields id namespaces = value.
Proof.
  induction namespaces as [| [k v] rest IH]; intros i id value Hnd Hi;
    [discriminate |].
  apply NoDup_cons in Hnd as [Hk Hnd]. simpl.
  destruct i as [| i]; simpl in Hi.
  - injection Hi as -> ->. rewrite String.eqb_refl. reflexivity.
  - destruct (String.eqb_spec id k) as [-> | Hne]; [| eapply IH; eauto].
    exfalso. apply Hk. apply list_elem_of_fmap. exists (k, value).
    split; [reflexivity |]. eapply list_elem_of_lookup_2, Hi.
Qed.

(** X14.  [convertLegacyNamespacesConfig] turns an object from namespace id
    to configuration object (distinct keys, as every object has) into an
    array of the same length and order.  Each entry has every property of
    the value it comes from, unchanged, and an [id]: the key, unless the
    value has an [id] of its own, which then wins over the key. *)
Theorem convert_legacy_namespaces
    (namespaces : list (string * list (string * JsVal))) :
  NoDup (map fst namespaces) →
  (∀ id value, (id, value) ∈ namespaces → NoDup (map fst value)) →
  length (convertLegacyNamespacesConfig namespaces) = length namespaces
  ∧ (∀ i id value,
       namespaces !! i = Some (id, value) →
       ∃ o, convertLegacyNamespacesConfig namespaces !! i = Some o
            ∧ (∀ k, k ≠ "id" → assoc k o = assoc k value)
            ∧ assoc "id" o
              = if bool_decide ("id" ∈ map fst value)
                then assoc "id" value else VStr id).
Proof.
  intros Hnd Hvals. split.
  - unfold convertLegacyNamespacesConfig. rewrite !length_map. reflexivity.
  - intros i id value Hi.
    unfold convertLegacyNamespacesConfig.
    rewrite !list_lookup_fmap, Hi. simpl.
    rewrite (lookup_fields_nodup namespaces i id value Hnd Hi).
    eexists. split; [reflexivity |].
    assert (Hv : NoDup (map fst value)).
    { eapply Hvals, list_elem_of_lookup_2, Hi. }
    split.
    + intros k Hk. rewrite assoc_obj_assign by exact Hv.
      destruct (bool_decide (k ∈ map fst value)) eqn:E; [reflexivity |].
      simpl. destruct (String.eqb_spec k "id"); [contradiction |].
      apply bool_decide_eq_false in E.
      symmetry. apply assoc_absent, E.
    + rewrite assoc_obj_assign by exact Hv.
      destruct (bool_decide ("id" ∈ map fst value)); reflexivity.
Qed.

Lemma convert_legacy_namespaces_witness :
  NoDup (map fst legacy_namespaces)
  ∧ length (convertLegacyNamespacesConfig legacy_namespaces) = 2%nat
  ∧ (∃ o, convertLegacyNamespacesConfig legacy_namespaces !! 0%nat = Some o
          ∧ assoc "id" o = VStr "layouts"
          ∧ assoc "paths" o = VArr [VStr "templates/layouts"])
  ∧ (∃ o, convertLegacyNamespacesConfig legacy_namespaces !! 1%nat = Some o
          ∧ assoc "id" o = VStr "ui"
          ∧ assoc "recursive" o = VBool true).
Proof.
  assert (Hnd : NoDup (map fst legacy_namespaces)).
  { apply NoDup_ListNoDup. repeat constructor; simpl; intuition discriminate. }
  assert (Hvals : ∀ id value, (id, value) ∈ legacy_namespaces →
                              NoDup (map fst value)).
  { intros id value Hin. apply NoDup_ListNoDup.
    apply list_elem_of_In in Hin. simpl in Hin.
    destruct Hin as [[= <- <-] | [[= <- <-] | []]];
      repeat constructor; simpl; intuition discriminate. }
  destruct (convert_legacy_namespaces legacy_namespaces Hnd Hvals)
    as [Hlen Hpos].
  split; [exact Hnd |]. split; [exact Hlen |]. split.
  - destruct (Hpos 0%nat _ _ eq_refl) as (o & Ho & Hk & Hid).
    exists o. split; [exact Ho |]. split; [exact Hid |].
    rewrite Hk by discriminate. reflexivity.
  - destruct (Hpos 1%nat _ _ eq_refl) as (o & Ho & Hk & Hid).
    exists o. split; [exact Ho |]. split; [exact Hid |].
    rewrite Hk by discriminate. reflexivity.
Defined.

(** ** The plugin's output *)

Lemma js_or_string s d :
  js_or (VStr s) (VStr d) = VStr (if String.eqb s "" then d else s).
Proof. unfold js_or. simpl. destruct (String.eqb s ""); reflexivity. Qed.

(** X15.  What [renderTemplate] makes of the outcome of [render] or
    [renderString].  A truthy result with a truthy [ok] gives the content
    [results.html], or the empty string when [html] is missing or falsy, and
    no error.  A truthy result with a falsy [ok] gives the error
    [results.message], or ["Unknown error during rendering"] when the
    message is missing or falsy, and no content.  A falsy result gives the
    error ["No response from TwigRenderer"].  An exception gives its message
    as the error, or its [toString()] when the message is empty.  So the
    output has exactly one of [content] and [error], and an error is never
    empty.  For the results [request] builds itself: a response that is not
    JSON gives its body as the content when it is ok, and its [Warning]
    header as the error when not, or the unknown error when there is none;
    a request that failed three times gives the last error's message. *)
Theorem render_output_complete (error_name : string) (o : Outcome) :
  error_name ≠ "" →
  (out_content (render_output error_name o) = None
   ↔ out_error (render_output error_name o) ≠ None)
  ∧ (∀ e, out_error (render_output error_name o) = Some e → truthy e = true)
  ∧ (∀ results,
       o = Returned results →
       truthy results = true →
       truthy (prop_of results "ok") = true →
       render_output error_name o
       = {| out_content :=
              Some (if truthy (prop_of results "html")
                    then prop_of results "html" else VStr "");
            out_error := None |})
  ∧ (∀ results,
       o = Returned results →
       truthy results = true →
       truthy (prop_of results "ok") = false →
       render_output error_name o
       = {| out_content := None;
            out_error :=
              Some (if truthy (prop_of results "message")
                    then prop_of results "message"
                    else VStr "Unknown error during rendering") |})
  ∧ (∀ results,
       o = Returned results →
       truthy results = false →
       render_output error_name o
       = {| out_content := None;
            out_error := Some (VStr "No response from TwigRenderer") |})
  ∧ (∀ msg,
       o = Threw msg →
       render_output error_name o
       = {| out_content := None;
            out_error :=
              Some (VStr (if String.eqb msg "" then error_name else msg)) |})
  ∧ (∀ r html,
       o = Returned (plain_result r html) →
       render_output error_name o
       = if res_ok r
         then {| out_content := Some (VStr html); out_error := None |}
         else {| out_content := None;
                 out_error :=
                   Some (VStr (match res_warning r with
                               | Some "" | None =>
                                   "Unknown error during rendering"
                               | Some warning => warning
                               end)) |})
  ∧ (∀ msg,
       o = Returned (VObj [("ok", VBool false); ("message", VStr msg)]) →
       render_output error_name o
       = {| out_content := None;
            out_error :=
              Some (VStr (if String.eqb msg ""
                          then "Unknown error during rendering"
                          else msg)) |}).
Proof.
  intros Hn.
  assert (Hname : truthy (VStr error_name) = true).
  { simpl. destruct (String.eqb_spec error_name "");
      [contradiction | reflexivity]. }
  split; [| split; [| split; [| split; [| split; [| split; [| split]]]]]].
  - destruct o as [results | msg]; simpl.
    + destruct (truthy results && truthy (prop_of results "ok"));
        [| destruct (truthy results)]; simpl; split; congruence.
    + split; congruence.
  - intros e. destruct o as [results | msg]; simpl.
    + destruct (truthy results && truthy (prop_of results "ok"));
        [discriminate |].
      destruct (truthy results); simpl; intros [= <-]; [| reflexivity].
      unfold js_or. destruct (truthy (prop_of results "message")) eqn:E;
        [exact E | reflexivity].
    + intros [= <-]. unfold js_or.
      destruct (truthy (VStr msg)) eqn:E; [exact E | exact Hname].
  - intros results -> Ht Hok. unfold render_output, js_or.
    rewrite Ht, Hok. reflexivity.
  - intros results -> Ht Hok. unfold render_output, js_or.
    rewrite Ht, Hok. reflexivity.
  - intros results -> Ht. unfold render_output. rewrite Ht. reflexivity.
  - intros msg ->. unfold render_output. rewrite js_or_string. reflexivity.
  - intros r html ->. unfold render_output, plain_result, prop_of.
    destruct (res_ok r); simpl.
    + rewrite js_or_string. destruct (String.eqb html "") eqn:E;
        [apply String.eqb_eq in E; subst |]; reflexivity.
    + destruct (res_warning r) as [[| c s] |]; reflexivity.
  - intros msg ->. unfold render_output, prop_of. simpl.
    rewrite js_or_string. reflexivity.
Qed.

Lemma render_output_complete_witness :
  render_output "Error" (Returned result_without_message)
  = {| out_content := None;
       out_error := Some (VStr "Unknown error during rendering") |}
  ∧ render_output "Error" (Returned (plain_result plain_ok "<p>hello</p>"))
    = {| out_content := Some (VStr "<p>hello</p>"); out_error := None |}
  ∧ render_output "Error" (Returned VNull)
    = {| out_content := None;
         out_error := Some (VStr "No response from TwigRenderer") |}.
Proof.
  assert (Hn : "Error" ≠ "") by discriminate.
  destruct (render_output_complete "Error"
              (Returned result_without_message) Hn)
    as (_ & _ & _ & Hfail & _).
  destruct (render_output_complete "Error"
              (Returned (plain_result plain_ok "<p>hello</p>")) Hn)
    as (_ & _ & _ & _ & _ & _ & Hplain & _).
  destruct (render_output_complete "Error" (Returned VNull) Hn)
    as (_ & _ & _ & _ & Hnone & _).
  split; [| split].
  - apply (Hfail result_without_message); reflexivity.
  - apply (Hplain plain_ok "<p>hello</p>"). reflexivity.
  - apply (Hnone VNull); reflexivity.
Defined.

(** ** Attempts that fail before one succeeds *)

Lemma failures_run a k failed : ∀ n w,
  failures k failed →
  (n + k < attempts)%nat →
  ∃ w1,
    (∀ rest, run w (TRequest a (RFetch n)) (failed ++ rest)
             = run w1 (TRequest a (RFetch (n + k))) rest)
    ∧ inProgressRequests w1 = inProgressRequests w
    ∧ totalRequests w1 = totalRequests w
    ∧ completedRequests w1 = completedRequests w
    ∧ serverState w1 = serverState w
    ∧ fetches (history w1) = (fetches (history w) + k)%nat.
Proof.
  intros n w Hf. revert n w.
  induction Hf as [| k msg i rest0 Hi Hf IH]; intros n w Hn.
  - exists w. rewrite Nat.add_0_r. repeat split; try reflexivity. lia.
  - assert (Hlt : (S n <? attempts)%nat = true) by (apply Nat.ltb_lt; lia).
    destruct (IH (S n)
                (log (EvFetch (phpServerUrl w) (req_type a) (req_body a))
                   (set_counters (inProgressRequests w - 1 + 1)
                      (totalRequests w) (completedRequests w) w)))
      as (w1 & Hrun & Hip & Htot & Hcomp & Hst & Hfe); [lia |].
    exists w1. fields. split; [| repeat split; try assumption; try lia].
    + intros rest. rewrite <- app_assoc.
      rewrite (failed_attempt_run a w n msg i _ Hi).
      unfold attempt_failed, retry_loop. fields. rewrite Hlt.
      cbn [of_request]. rewrite Hrun.
      replace (n + S k)%nat with (S n + k)%nat by lia. reflexivity.
    + rewrite Hfe. simpl. lia.
Qed.

Lemma answered_run a w n good v :
  answered good v →
  run w (TRequest a (RFetch n)) good
  = (set_counters (inProgressRequests w - 1) (totalRequests w)
       (completedRequests w + 1) w,
     TDone (Returned v), []).
Proof.
  intros [r v' Hct Hnull Hundef Hmsg | r html Hct].
  - cbn [run resume request_resume].
    destruct (decide (res_contentType r = Some "application/json"));
      [| contradiction].
    cbn [fmap option_fmap option_map of_request run resume request_resume].
    unfold attempt_ok, request_end. unfold prop_of in Hmsg.
    destruct (get_prop v' "ok") as [ok |] eqn:Eok;
      [| destruct v'; try discriminate Eok; contradiction].
    simpl in Hmsg. rewrite Hmsg. reflexivity.
  - apply attempt_plain, Hct.
Qed.

(** X16.  A request whose first attempts fail and whose next one is
    answered returns that answer: on a [READY] renderer, after [k] failed
    attempts, [k] at most 2, a response with a JSON body gives the parsed
    body as it is, unless the body is [null] or has [ok: false] with a
    message that has no string; any other response gives
    [{ok, message, html}]; nothing of the failures is in the result.  The
    request is counted once in [totalRequests] and once in
    [completedRequests], [inProgressRequests] is back where it was, and
    [k + 1] requests were sent. *)
Theorem request_recovers (w : Renderer) (a : ReqArgs) (k : nat)
    (failed good : list Input) (v : JsVal) :
  serverState w = READY →
  gate_open w →
  failures k failed →
  (k < 3)%nat →
  answered good v →
  ∃ w', run_call w (CRequest a) (failed ++ good)
        = (w', TDone (Returned v), [])
        ∧ serverState w' = READY
        ∧ totalRequests w' = totalRequests w + 1
        ∧ completedRequests w' = completedRequests w + 1
        ∧ inProgressRequests w' = inProgressRequests w
        ∧ fetches (history w') = (fetches (history w) + k + 1)%nat.
Proof.
  intros Hs Hg Hf Hk Hgood.
  unfold run_call, call, request_call. fields.
  rewrite Hs. cbn [state_eqb].
  rewrite gate_ready_admits by (fields; assumption). fields.
  cbn [of_request].
  destruct (failures_run a k failed 0
              (log (EvFetch (phpServerUrl w) (req_type a) (req_body a))
                 (set_counters (inProgressRequests w + 1)
                    (totalRequests w + 1) (completedRequests w) w)) Hf)
    as (w1 & Hrun & Hip & Htot & Hcomp & Hst & Hfe);
    [unfold attempts; lia |].
  fields. rewrite Hrun, (answered_run a w1 _ good v Hgood).
  eexists. split; [reflexivity |]. fields.
  rewrite Hst, Htot, Hcomp, Hip, Hfe. simpl.
  repeat split; try assumption; lia.
Qed.

Lemma request_recovers_witness :
  ∃ w', run_call (ready_renderer sample_config) (CRequest meta_args)
          ([InThrow "ECONNREFUSED"; InResponse json_ok; InThrow "Bad JSON";
            InResponse json_ok; InJson (VObj [("ok", VBool true)])])
        = (w', TDone (Returned (VObj [("ok", VBool true)])), [])
        ∧ completedRequests w' = 1
        ∧ inProgressRequests w' = 0
        ∧ fetches (history w') = 3%nat.
Proof.
  assert (Hg : gate_open (ready_renderer sample_config))
    by (vm_compute; intros H; discriminate H).
  assert (Hf : failures 2 ([InThrow "ECONNREFUSED"]
                           ++ [InResponse json_ok; InThrow "Bad JSON"]
                           ++ [])).
  { apply (failures_S 1 "ECONNREFUSED"); [constructor |].
    apply (failures_S 0 "Bad JSON"); constructor. }
  assert (Hgood : answered [InResponse json_ok;
                            InJson (VObj [("ok", VBool true)])]
                    (VObj [("ok", VBool true)]))
    by (constructor; [reflexivity | discriminate | discriminate
                      | reflexivity]).
  destruct (request_recovers (ready_renderer sample_config) meta_args 2 _ _ _
              eq_refl Hg Hf ltac:(lia) Hgood)
    as (w' & Hr & _ & _ & Hc & Hi & Hfe).
  exists w'. split; [exact Hr |]. split; [exact Hc |].
  split; [exact Hi | exact Hfe].
Defined.

(** ** Probing until the worker answers *)

Lemma probes_polled n url h :
  probes (concat (replicate n [EvProbe url; EvSleep 100]) ++ h)
  = (n + probes h)%nat.
Proof. induction n as [| n IH]; simpl; [reflexivity | rewrite IH; reflexivity]. Qed.

Lemma spawns_polled n url h :
  spawns (concat (replicate n [EvProbe url; EvSleep 100]) ++ h) = spawns h.
Proof. induction n as [| n IH]; simpl; [reflexivity | exact IH]. Qed.

Lemma polled_shift {A : Type} (n : nat) (x y : A) (l : list A) :
  concat (replicate n [x; y]) ++ x :: y :: l
  = x :: y :: concat (replicate n [x; y]) ++ l.
Proof. induction n as [| n IH]; simpl; [reflexivity | rewrite IH; reflexivity]. Qed.

Lemma failed_probe_run w poll rest :
  serverState w = STARTING →
  failed_probe poll →
  run w (TInit IProbe) (poll ++ rest) = run (polled 1 w) (TInit IProbe) rest.
Proof.
  intros Hs Hp.
  assert (Hw : log (EvProbe (phpServerUrl w)) (log (EvSleep 100) w)
               = polled 1 w) by (destruct w; reflexivity).
  destruct Hp as [msg | r Hr]; cbn [app].
  - erewrite run_step; cycle 1.
    { cbn [resume init_resume checkIfServerIsReady_resume]. reflexivity. }
    erewrite run_step; cycle 1.
    { cbn [resume init_resume]. unfold checkServerWhileStarting. fields.
      rewrite Hs. reflexivity. }
    fields. rewrite <- Hw. reflexivity.
  - erewrite run_step; cycle 1.
    { cbn [resume init_resume checkIfServerIsReady_resume]. rewrite Hr.
      reflexivity. }
    erewrite run_step; cycle 1.
    { cbn [resume init_resume]. unfold checkServerWhileStarting. fields.
      rewrite Hs. reflexivity. }
    fields. rewrite <- Hw. reflexivity.
Qed.

Lemma polling_loop polls : ∀ w rest,
  serverState w = STARTING →
  Forall failed_probe polls →
  run w (TInit IProbe) (concat polls ++ rest)
  = run (polled (length polls) w) (TInit IProbe) rest.
Proof.
  induction polls as [| poll polls IH]; intros w rest Hs Hall.
  - destruct w; reflexivity.
  - inversion Hall as [| ? ? Hp Hall']; subst.
    cbn [concat]. rewrite <- app_assoc.
    rewrite (failed_probe_run w poll _ Hs Hp).
    rewrite IH; [| destruct w; exact Hs | exact Hall'].
    replace (polled (length polls) (polled 1 w))
      with (polled (length (poll :: polls)) w); [reflexivity |].
    destruct w; unfold polled, set_history; simpl. f_equal.
    rewrite polled_shift. reflexivity.
Qed.

Lemma init_polls_run w p polls rest :
  serverState w = STOPPED ∨ serverState w = READY →
  (p ∉ portsUsed w) →
  Forall failed_probe polls →
  run_call w CInit ([InPort p; InOk] ++ concat polls ++ rest)
  = run (polled (length polls)
           (log (EvProbe (Some (Loopback p)))
              (spawn (log (EvWriteFile (SharedConfig p))
                        (set_port p
                           (log (EvPortReturned p)
                              (add_port p
                                 (getOpenPort_call
                                    (set_serverState STARTING w)))))))))
      (TInit IProbe) rest.
Proof.
  intros Hs Hp Hpolls.
  unfold run_call, call. rewrite (init_call_fresh w Hs).
  cbn [of_init app].
  erewrite run_step; cycle 1.
  { cbn [resume]. rewrite init_port_fresh by exact Hp. reflexivity. }
  erewrite run_step; cycle 1.
  { cbn [resume]. rewrite init_file_written by reflexivity. reflexivity. }
  rewrite polling_loop; [| reflexivity | exact Hpolls].
  destruct (run _ _ rest) as [[w2 t2] sp2]. reflexivity.
Qed.

(** X17.  [init] probes until the worker answers: from [STOPPED] or
    [READY], with a port outside the registry, every probe that is refused
    or answered with a status that is not ok is followed by a sleep of 100 ms
    and another probe, whatever their number; the first ok answer makes the
    state [READY] and [init] returns ["READY"] after one more sleep.  The
    child was spawned once, before the first probe, and one probe more was
    sent than failed.  As long as no probe is passed [init] has not
    returned and the state is [STARTING]. *)
Theorem init_polls_until_ready (w : Renderer) (p : N)
    (polls : list (list Input)) (r : Response) :
  serverState w = STOPPED ∨ serverState w = READY →
  (p ∉ portsUsed w) →
  Forall failed_probe polls →
  res_ok r = true →
  (∃ w', run_call w CInit ([InPort p; InOk] ++ concat polls ++ [])
         = (w', TInit IProbe, [])
         ∧ serverState w' = STARTING
         ∧ probes (history w') = (probes (history w) + length polls + 1)%nat)
  ∧ ∃ w', run_call w CInit
            ([InPort p; InOk] ++ concat polls ++ [InResponse r; InOk])
          = (w', TDone (Returned (VStr "READY")), [])
          ∧ serverState w' = READY
          ∧ phpServerPort w' = Some p
          ∧ phpServerUrl w' = Some (Loopback p)
          ∧ phpServer w'
            = Some {| child_port := Some p; child_listeners := true |}
          ∧ probes (history w') = (probes (history w) + length polls + 1)%nat
          ∧ spawns (history w') = (spawns (history w) + 1)%nat.
Proof.
  intros Hs Hp Hpolls Hr. split.
  - rewrite (init_polls_run w p polls [] Hs Hp Hpolls).
    eexists. split; [reflexivity |]. unfold polled.
    cbn [serverState history phpServerUrl set_history log spawn set_children
           set_port add_port getOpenPort_call set_serverState].
    split; [reflexivity |].
    rewrite probes_polled. cbn [probes]. lia.
  - rewrite (init_polls_run w p polls _ Hs Hp Hpolls).
    erewrite run_step; cycle 1.
    { cbn [resume]. rewrite (init_probe_ok _ r Hr). reflexivity. }
    erewrite run_step; cycle 1.
    { cbn [resume]. rewrite init_slept_ready by reflexivity. reflexivity. }
    eexists. split; [reflexivity |]. unfold polled.
    cbn [serverState history phpServerUrl phpServerPort phpServer
           set_history log spawn set_children
           set_port add_port getOpenPort_call set_serverState].
    split; [reflexivity |]. split; [reflexivity |]. split; [reflexivity |].
    split; [reflexivity |]. cbn [probes spawns].
    rewrite probes_polled, spawns_polled. cbn [probes spawns].
    split; lia.
Qed.

Lemma init_polls_until_ready_witness :
  ∃ w', run_call (new_renderer sample_config) CInit
          [InPort 8000; InOk; InThrow "ECONNREFUSED"; InOk;
           InResponse probe_failed; InOk; InResponse probe_ok; InOk]
        = (w', TDone (Returned (VStr "READY")), [])
        ∧ serverState w' = READY
        ∧ probes (history w') = 3%nat
        ∧ spawns (history w') = 1%nat.
Proof.
  assert (Hp : (8000%N ∉ portsUsed (new_renderer sample_config)))
    by (vm_compute; discriminate).
  assert (Hpolls : Forall failed_probe
                     [[InThrow "ECONNREFUSED"; InOk];
                      [InResponse probe_failed; InOk]])
    by (repeat constructor).
  destruct (init_polls_until_ready (new_renderer sample_config) 8000 _
              probe_ok (or_introl eq_refl) Hp Hpolls eq_refl)
    as [_ (w' & Hr & Hs & _ & _ & _ & Hpr & Hsp)].
  exists w'. split; [exact Hr |]. split; [exact Hs |].
  split; [exact Hpr | exact Hsp].
Defined.

(** ** What [request] and [getMeta] never do *)

Lemma quiet_refl w : quiet w w.
Proof. unfold quiet. auto. Qed.

Lemma quiet_trans w1 w2 w3 : quiet w1 w2 → quiet w2 w3 → quiet w1 w3.
Proof.
  unfold quiet. intros (Ht & Hk & Hc & Hs) (Ht' & Hk' & Hc' & Hs').
  split; [congruence |]. split; [congruence |]. split; [congruence |].
  destruct Hs' as [Hs' | [Hs' | Hs']]; [| auto | auto].
  rewrite Hs'. exact Hs.
Qed.

Lemma request_call_quiet a w w' st :
  request_call a w = (w', st) → quiet w w'.
Proof.
  unfold quiet.
  destruct w as [pu st0 ip tot comp cfg port url path srv orph tm hist].
  unfold_model. intros H.
  split_cases; simpl; repeat (split; [reflexivity |]); auto.
Qed.

Lemma request_resume_quiet a w pc i w' st :
  request_resume a w pc i = Some (w', st) → quiet w w'.
Proof.
  unfold quiet.
  destruct w as [pu st0 ip tot comp cfg port url path srv orph tm hist].
  unfold_model. intros H.
  split_cases; simpl; repeat (split; [reflexivity |]); auto.
Qed.

Lemma request_run_quiet a inputs : ∀ w pc,
  ∃ w' t, run w (TRequest a pc) inputs = (w', t, [])
          ∧ request_thread t = true ∧ quiet w w'.
Proof.
  induction inputs as [| i rest IH]; intros w pc.
  - exists w, (TRequest a pc). split; [reflexivity |].
    split; [reflexivity | apply quiet_refl].
  - cbn [run resume].
    destruct (request_resume a w pc i) as [[w1 st] |] eqn:E; cbn [fmap option_fmap option_map].
    + apply request_resume_quiet in E.
      destruct st as [pc' | v | msg]; cbn [of_request].
      * destruct (IH w1 pc') as (w' & t & Hr & Ht & Hq).
        rewrite Hr. exists w', t. split; [reflexivity |].
        split; [exact Ht | exact (quiet_trans _ _ _ E Hq)].
      * rewrite run_done. eexists _, _. split; [reflexivity |].
        split; [reflexivity | exact E].
      * rewrite run_done. eexists _, _. split; [reflexivity |].
        split; [reflexivity | exact E].
    + apply IH.
Qed.

(** X18.  [request] and [getMeta] never shut the worker down, whatever the
    outside world answers and however far the call gets: they start no
    cleanup, set no timer, send no kill signal, leave the configuration as
    it is, and leave the state as they found it or at [STARTING] or
    [READY].  Only [render] and [renderString] go on to [closeServer]. *)
Theorem request_never_stops (w : Renderer) (c : Call) (inputs : list Input) :
  c = CGetMeta ∨ (∃ a, c = CRequest a) →
  ∃ w' t, run_call w c inputs = (w', t, [])
          ∧ request_thread t = true
          ∧ timers w' = timers w
          ∧ kills (history w') = kills (history w)
          ∧ config w' = config w
          ∧ (serverState w' = serverState w
             ∨ serverState w' = STARTING ∨ serverState w' = READY).
Proof.
  intros Hc.
  assert (∃ a, call w c = of_request a (request_call a w)) as [a Hcall].
  { destruct Hc as [-> | [a ->]]; eexists; reflexivity. }
  unfold run_call. rewrite Hcall.
  destruct (request_call a w) as [w1 st] eqn:E.
  apply request_call_quiet in E.
  destruct st as [pc | v | msg]; cbn [of_request].
  - destruct (request_run_quiet a inputs w1 pc) as (w' & t & Hr & Ht & Hq).
    rewrite Hr. exists w', t. split; [reflexivity |].
    split; [exact Ht | exact (quiet_trans _ _ _ E Hq)].
  - rewrite run_done. eexists _, _. split; [reflexivity |].
    split; [reflexivity | exact E].
  - rewrite run_done. eexists _, _. split; [reflexivity |].
    split; [reflexivity | exact E].
Qed.

Lemma request_never_stops_witness :
  is_false (keepAlive (config (ready_renderer sample_config))) = true
  ∧ idle (ready_renderer sample_config) = true
  ∧ ∃ w', run_call (ready_renderer sample_config) CGetMeta one_answer
          = (w', TDone (Returned (plain_result plain_ok "<p>hello</p>")), [])
          ∧ serverState w' = READY
          ∧ timers w' = 0%nat.
Proof.
  split; [reflexivity |]. split; [reflexivity |].
  destruct (request_never_stops (ready_renderer sample_config) CGetMeta
              one_answer (or_introl eq_refl))
    as (w' & t & Hr & _ & Ht & _ & _ & Hs).
  assert (Hrun : run_call (ready_renderer sample_config) CGetMeta one_answer
                 = (w', TDone (Returned (plain_result plain_ok "<p>hello</p>")),
                    [])).
  { rewrite Hr. f_equal. f_equal.
    assert (H : (run_call (ready_renderer sample_config) CGetMeta
                   one_answer).1.2
                = TDone (Returned (plain_result plain_ok "<p>hello</p>")))
      by (vm_compute; reflexivity).
    rewrite Hr in H. exact H. }
  exists w'. split; [exact Hrun |]. split; [| exact Ht].
  destruct Hs as [Hs | [Hs | Hs]]; [exact Hs | | exact Hs].
  exfalso.
  assert (H : serverState (run_call (ready_renderer sample_config) CGetMeta
                             one_answer).1.1 = READY)
    by (vm_compute; reflexivity).
  rewrite Hr in H. simpl in H. congruence.
Defined.

(** ** The listeners on the child *)

(** X19.  The [exit] listener cleans the config file up only when [exit]
    comes before [close].  After [close] the state is [STOPPING], so an
    [exit] that follows only sets [STOPPED]: the config path stays and no
    file system call is made.  An [exit] that finds any other state runs
    [cleanupConfigFile] first: whatever the file system answers, the state
    ends [STOPPED] with the config path cleared.  Neither listener sends a
    kill signal or touches the child, the port or the counters. *)
Theorem worker_exit_events (w : Renderer) (answers : list Input) :
  on_exit (on_close w) = (set_serverState STOPPED w, None)
  ∧ (serverState w ≠ STOPPING →
     cleanup_answers answers →
     ∃ w', (let '(w1, t1, _) := of_cleanup (on_exit w) in run w1 t1 answers)
           = (w', TDone (Returned VUndefined), [])
           ∧ serverState w' = STOPPED
           ∧ sharedConfigPath w' = None
           ∧ match sharedConfigPath w with
             | Some f => EvPathExists f ∈ history w'
             | None => history w' = history w
             end
           ∧ kills (history w') = kills (history w)
           ∧ phpServer w' = phpServer w
           ∧ phpServerPort w' = phpServerPort w
           ∧ totalRequests w' = totalRequests w
           ∧ completedRequests w' = completedRequests w
           ∧ inProgressRequests w' = inProgressRequests w).
Proof.
  destruct w as [pu st ip tot comp cfg port url path srv orph tm hist].
  split; [reflexivity |].
  cbn [serverState sharedConfigPath history phpServer phpServerPort
         totalRequests completedRequests inProgressRequests].
  intros Hs Ha. unfold on_exit. cbn [serverState].
  rewrite (state_eqb_ne st STOPPING Hs).
  unfold cleanupConfigFile_call. cbn [sharedConfigPath].
  destruct path as [f |]; cbn [await_cleanup of_cleanup].
  - destruct Ha; eexists; (split; [reflexivity |]); cbn;
      repeat split; auto; set_solver.
  - destruct Ha; eexists; (split; [reflexivity |]); cbn; repeat split.
Qed.

Lemma worker_exit_events_witness :
  ∃ w', (let '(w1, t1, _) := of_cleanup (on_exit (ready_renderer sample_config))
         in run w1 t1 [InBool true; InOk])
        = (w', TDone (Returned VUndefined), [])
        ∧ serverState w' = STOPPED
        ∧ sharedConfigPath w' = None
        ∧ sharedConfigPath (on_exit (on_close (ready_renderer sample_config))).1
          = Some (SharedConfig 8000).
Proof.
  destruct (worker_exit_events (ready_renderer sample_config)
              [InBool true; InOk]) as [Hclose Hexit].
  destruct Hexit as (w' & Hr & Hs & Hp & _);
    [vm_compute; discriminate | constructor |].
  exists w'. split; [exact Hr |]. split; [exact Hs |]. split; [exact Hp |].
  rewrite Hclose. vm_compute. reflexivity.
Defined.
